(** * simple_financial_planner: calculators, tool dispatcher and agent turn

    A shallow embedding of [simple_financial_planner.py]:

    - the two calculators [calculate_sip_projection] and
      [plan_retirement_goal], written once over an interface [PyFloat] of
      Python's [float] arithmetic, with two instances: [Exact] (rationals,
      the arithmetic in which the annuity formulas are usually read) and
      [Binary64] (IEEE-754 double precision, what CPython executes);
    - the tool registry [TOOL_MAPPING] and catalog [TOOLS];
    - the dispatcher [invoke_tools_from_response];
    - the turn loop [run_agent_turn] against a backend given as a state
      machine;
    - the command-line session [main], over standard input and output
      given as lists of lines.

    Python exceptions are values of [exception]; a computation that may
    raise has type [raises A].

    Parameters are taken at their annotated types: a parameter annotated
    [float] is a float, one annotated [int] is an integer.  (Python also
    accepts an [int] where a [float] is annotated and then multiplies
    integers exactly; the numbers returned are the same.)  The library
    functions [json.loads], [json.dumps] and [str] of an exception are
    parameters of the dispatcher, and the backend behind
    [client.responses.create] is a parameter of the turn loop. *)

From Stdlib Require Import ZArith QArith Qround Qabs Qpower Qminmax.
From Stdlib Require Import List String Ascii Bool Lia Lqa.
From Stdlib Require Import SpecFloat.
Import ListNotations.

Local Open Scope string_scope.
Local Open Scope Z_scope.

(** ** Exceptions *)

(** The exception classes that the modelled code can meet. *)
Inductive exception : Type :=
| TypeError
| ValueError
| OverflowError
| ZeroDivisionError
| JSONDecodeError.

(** [inl e]: the computation raised [e]; [inr a]: it returned [a]. *)
Definition raises (A : Type) : Type := (exception + A)%type.

Definition ret {A : Type} (a : A) : raises A := inr a.

Definition raise {A : Type} (e : exception) : raises A := inl e.

Definition bind {A B : Type} (c : raises A) (k : A -> raises B) : raises B :=
  match c with
  | inl e => inl e
  | inr a => k a
  end.

Notation "x <- c ;; k" := (bind c (fun x => k))
  (at level 61, c at next level, right associativity).

(** ** Result dictionaries *)

(** Values stored in a result dictionary, over the type [A] of floats. *)
Inductive value (A : Type) : Type :=
| VInt (z : Z)
| VFloat (x : A)
| VStr (s : string).

Arguments VInt {A} z.
Arguments VFloat {A} x.
Arguments VStr {A} s.

(** A Python [dict] literal: keys in insertion order. *)
Definition dict (A : Type) : Type := list (string * value A).

Definition keys {A : Type} (d : dict A) : list string := map fst d.

Fixpoint get {A : Type} (k : string) (d : dict A) : option (value A) :=
  match d with
  | [] => None
  | (k', v) :: d' => if String.eqb k k' then Some v else get k d'
  end.

(** ** Python's float arithmetic, as an interface

    [float_lit p q] is the literal whose decimal value is [p/q];
    [float_of_int] is the conversion Python applies to an [int] operand of
    a mixed operation (it raises [OverflowError] on a too large [int]);
    [ftruediv] is [/], which raises [ZeroDivisionError] on a zero divisor;
    [math_pow x n] is [math.pow(x, n)] for an [int] exponent;
    [round2 x] is [round(x, 2)]. *)
Class PyFloat : Type := {
  float : Type;
  float_lit : Z -> positive -> float;
  float_of_int : Z -> raises float;
  fadd : float -> float -> float;
  fsub : float -> float -> float;
  fmul : float -> float -> float;
  ftruediv : float -> float -> raises float;
  math_pow : float -> Z -> raises float;
  feq : float -> float -> bool;
  flt : float -> float -> bool;
  fle : float -> float -> bool;
  round2 : float -> float
}.

Arguments float_lit {F} p q : rename.
Arguments float_of_int {F} n : rename.
Arguments fadd {F} x y : rename.
Arguments fsub {F} x y : rename.
Arguments fmul {F} x y : rename.
Arguments ftruediv {F} x y : rename.
Arguments math_pow {F} x n : rename.
Arguments feq {F} x y : rename.
Arguments flt {F} x y : rename.
Arguments fle {F} x y : rename.
Arguments round2 {F} x : rename.

(** ** The calculators *)

Section Calculators.

Context {F : PyFloat}.

(** The [int] constants [0], [1] and [12] where they meet a float. *)
Definition f0 : float := float_lit 0 1.
Definition f1 : float := float_lit 1 1.
Definition f12 : float := float_lit 12 1.
Definition f100 : float := float_lit 100 1.

(** [x * n] for a float [x] and an [int] [n]. *)
Definition mul_int (x : float) (n : Z) : raises float :=
  n' <- float_of_int n ;;
  ret (fmul x n').

(** [max(x, 0)]: the builtin keeps its first argument unless the second
    is strictly greater. *)
Definition max0 (x : float) : float :=
  if flt x f0 then f0 else x.

(** The monthly rate [(pct / 100.0) / 12.0]. *)
Definition monthly_rate (pct : float) : raises float :=
  a <- ftruediv pct f100 ;;
  ftruediv a f12.

(** Lines 31-34: the future value, before rounding. *)
Definition future_value (monthly_investment r : float) (n : Z) : raises float :=
  if feq r f0 then
    mul_int monthly_investment n
  else
    p <- math_pow (fadd f1 r) n ;;
    q <- ftruediv (fsub p f1) r ;;
    ret (fmul monthly_investment q).

Definition calculate_sip_projection
    (monthly_investment expected_annual_return_pct : float) (years : Z)
    : raises (dict float) :=
  if years <=? 0 then
    ret [("error", VStr "Years must be > 0")]
  else
    r <- monthly_rate expected_annual_return_pct ;;
    let n := years * 12 in
    future_value <- future_value monthly_investment r n ;;
    total_invested <- mul_int monthly_investment n ;;
    let gain := fsub future_value total_invested in
    ret [("monthly_investment", VFloat monthly_investment);
         ("expected_annual_return_pct", VFloat expected_annual_return_pct);
         ("years", VInt years);
         ("total_invested", VFloat (round2 total_invested));
         ("projected_value", VFloat (round2 future_value));
         ("projected_gain", VFloat (round2 gain))].

(** Lines 70-76: the corpus required at retirement, before rounding. *)
Definition required_corpus_of
    (years_to_retirement : Z) (monthly_expense_today inflation_pct : float)
    : raises (float * float) :=
  infl <- ftruediv inflation_pct f100 ;;
  p <- math_pow (fadd f1 infl) years_to_retirement ;;
  let target_monthly_at_retirement := fmul monthly_expense_today p in
  let annual_exp_at_retirement := fmul target_monthly_at_retirement f12 in
  let safe_withdrawal_rate := float_lit 4 100 in
  required_corpus <- ftruediv annual_exp_at_retirement safe_withdrawal_rate ;;
  ret (target_monthly_at_retirement, required_corpus).

Definition plan_retirement_goal
    (current_age retirement_age : Z)
    (monthly_expense_today inflation_pct
     expected_return_pct_during_accumulation current_corpus : float)
    : raises (dict float) :=
  let years_to_retirement := retirement_age - current_age in
  if years_to_retirement <=? 0 then
    ret [("error", VStr "Retirement age must be greater than current age.")]
  else
    tr <- required_corpus_of years_to_retirement monthly_expense_today
            inflation_pct ;;
    let target_monthly_at_retirement := fst tr in
    let required_corpus := snd tr in
    let goal_amount := max0 (fsub required_corpus current_corpus) in
    r <- monthly_rate expected_return_pct_during_accumulation ;;
    let n := years_to_retirement * 12 in
    if (n <=? 0) || fle r f0 then
      ret [("error", VStr "Invalid inputs for SIP calculation.");
           ("required_corpus", VFloat (round2 required_corpus))]
    else
      p <- math_pow (fadd f1 r) n ;;
      let denom := fsub p f1 in
      if feq denom f0 then
        ret [("error", VStr "Mathematical error in SIP calculation.");
             ("required_corpus", VFloat (round2 required_corpus))]
      else
        required_monthly_sip <- ftruediv (fmul goal_amount r) denom ;;
        ret [("current_age", VInt current_age);
             ("retirement_age", VInt retirement_age);
             ("years_to_retirement", VInt years_to_retirement);
             ("monthly_expense_today", VFloat (round2 monthly_expense_today));
             ("inflation_pct", VFloat inflation_pct);
             ("expected_return_pct_during_accumulation",
              VFloat expected_return_pct_during_accumulation);
             ("current_corpus", VFloat (round2 current_corpus));
             ("target_monthly_at_retirement",
              VFloat (round2 target_monthly_at_retirement));
             ("required_corpus", VFloat (round2 required_corpus));
             ("required_monthly_sip", VFloat (round2 required_monthly_sip))].

End Calculators.


(** ** Exact arithmetic

    Floats read as rationals: no rounding error and no overflow.
    [round(x, 2)] rounds the exact value half to even, as CPython does. *)

(** The integer nearest to [x], ties to the even one. *)
Definition round_half_even (x : Q) : Z :=
  let f := Qfloor x in
  match (x - inject_Z f ?= 1 # 2)%Q with
  | Lt => f
  | Gt => f + 1
  | Eq => if Z.even f then f else f + 1
  end.

Module ExactArith.

Definition truediv (x y : Q) : raises Q :=
  if Qeq_bool y 0 then raise ZeroDivisionError else ret (x / y)%Q.

(** [math.pow]: zero to a negative power is a domain error. *)
Definition pow (x : Q) (n : Z) : raises Q :=
  if Qeq_bool x 0 && (n <? 0) then raise ValueError else ret (x ^ n)%Q.

Definition round2 (x : Q) : Q := round_half_even (x * 100) # 100.

End ExactArith.

#[export] Instance Exact : PyFloat := {|
  float := Q;
  float_lit := Qmake;
  float_of_int := fun z => ret (inject_Z z);
  fadd := Qplus;
  fsub := Qminus;
  fmul := Qmult;
  ftruediv := ExactArith.truediv;
  math_pow := ExactArith.pow;
  feq := Qeq_bool;
  flt := fun x y => negb (Qle_bool y x);
  fle := Qle_bool;
  round2 := ExactArith.round2
|}.

(** ** IEEE-754 binary64 arithmetic

    CPython's [float] is the C [double]; [+], [-], [*] and [/] are the
    correctly rounded IEEE operations (round to nearest, ties to even),
    taken here from the library's executable specification [SpecFloat]. *)

Module IEEE.

Definition prec : Z := 53.
Definition emax : Z := 1024.

Definition zero : spec_float := S754_zero false.
Definition one : spec_float := S754_finite false 4503599627370496 (-52).

(** The binary64 nearest to [+-(p/q)]. *)
Definition of_ratio (s : bool) (p q : positive) : spec_float :=
  let '(m, e, l) := SFdiv_core_binary prec emax (Zpos p) 0 (Zpos q) 0 in
  binary_round_aux prec emax s m e l.

(** A decimal literal is read as the nearest binary64. *)
Definition lit (p : Z) (q : positive) : spec_float :=
  match p with
  | Z0 => zero
  | Zpos p' => of_ratio false p' q
  | Zneg p' => of_ratio true p' q
  end.

(** [float(n)] for an [int]: the nearest binary64, [OverflowError] when
    it is out of range. *)
Definition of_int (n : Z) : raises spec_float :=
  match binary_normalize prec emax n 0 false with
  | S754_infinity _ => raise OverflowError
  | x => ret x
  end.

(** The integer value of a float that holds an integer. *)
Definition to_int (x : spec_float) : Z :=
  match x with
  | S754_finite s m e =>
      let a := match e with
               | Zneg p => Zpos m / 2 ^ Zpos p
               | _ => Zpos m * 2 ^ e
               end in
      if s then - a else a
  | _ => 0
  end.

Definition truediv (x y : spec_float) : raises spec_float :=
  if SFeqb y zero then raise ZeroDivisionError
  else ret (SFdiv prec emax x y).

(** [math.pow(x, n)] for an [int] [n].  The exponent is first converted
    to a float; the C library's [pow] is taken as correctly rounded;
    CPython turns an overflow into [OverflowError] and a pole into
    [ValueError], and lets an underflow pass. *)
Definition pow (x : spec_float) (n : Z) : raises spec_float :=
  y <- of_int n ;;
  let k := to_int y in
  if k =? 0 then ret one
  else
    match x with
    | S754_nan => ret S754_nan
    | S754_infinity s =>
        if 0 <? k then ret (S754_infinity (s && Z.odd k))
        else ret (S754_zero (s && Z.odd k))
    | S754_zero s =>
        if 0 <? k then ret (S754_zero (s && Z.odd k))
        else raise ValueError
    | S754_finite s m e =>
        let a := Z.to_pos (Zpos m ^ Z.abs k) in
        let r :=
          if 0 <? k then binary_round prec emax (s && Z.odd k) a (e * k)
          else
            let '(q, e', l) :=
              SFdiv_core_binary prec emax 1 0 (Zpos a) (e * Z.abs k) in
            binary_round_aux prec emax (s && Z.odd k) q e' l in
        match r with
        | S754_infinity _ => raise OverflowError
        | _ => ret r
        end
    end.

(** [round(x, 2)]: the exact value of [x] is rounded half to even at two
    decimals, and the decimal result is read back as the nearest
    binary64.  A float with a non-negative exponent is an integer. *)
Definition round2 (x : spec_float) : spec_float :=
  match x with
  | S754_finite s m (Zneg p) =>
      match round_half_even (Zpos m * 100 # 2 ^ p) with
      | Zpos k => of_ratio s k 100
      | _ => S754_zero s
      end
  | _ => x
  end.

End IEEE.

#[export] Instance Binary64 : PyFloat := {|
  float := spec_float;
  float_lit := IEEE.lit;
  float_of_int := IEEE.of_int;
  fadd := SFadd IEEE.prec IEEE.emax;
  fsub := SFsub IEEE.prec IEEE.emax;
  fmul := SFmul IEEE.prec IEEE.emax;
  ftruediv := IEEE.truediv;
  math_pow := IEEE.pow;
  feq := SFeqb;
  flt := SFltb;
  fle := SFleb;
  round2 := IEEE.round2
|}.

(** ** The data exchanged with the backend

    [A] is the type of floats. *)

Section Data.

Variable A : Type.

(** What [json.loads] returns. *)
#[local] Unset Elimination Schemes.
Inductive json : Type :=
| JNull
| JBool (b : bool)
| JInt (z : Z)
| JFloat (x : A)
| JString (s : string)
| JArray (l : list json)
| JObject (o : list (string * json)).
#[local] Set Elimination Schemes.

(** *** Tool schemas *)

Record property : Type := {
  prop_name : string;
  prop_type : string;
  prop_minimum : option Z;
  prop_default : option A
}.

Record tool_spec : Type := {
  spec_type : string;
  spec_name : string;
  spec_properties : list property;
  spec_required : list string
}.

(** *** The backend's responses *)

(** An item of [response.output]; [name], [arguments] and [call_id] are
    read only on items of type ["function_call"]. *)
Record item : Type := {
  type : string;
  name : string;
  arguments : string;
  call_id : string
}.

Record Response : Type := {
  id : string;
  output : list item;
  output_text : string
}.

(** A [function_call_output] item fed back to the model. *)
Record function_call_output : Type := {
  out_type : string;
  out_call_id : string;
  out_output : string
}.

(** *** The backend's requests *)

(** The [input] of a backend request: the user's text, or tool outputs. *)
Inductive request_input : Type :=
| UserText (s : string)
| ToolOutputs (l : list function_call_output).

(** The keyword arguments of [client.responses.create]. *)
Record request : Type := {
  model : string;
  input : request_input;
  tools : list tool_spec;
  previous_response_id : option string
}.

End Data.

Arguments JNull {A}.
Arguments JBool {A} b.
Arguments JInt {A} z.
Arguments JFloat {A} x.
Arguments JString {A} s.
Arguments JArray {A} l.
Arguments JObject {A} o.
Arguments prop_name {A} p.
Arguments prop_type {A} p.
Arguments prop_minimum {A} p.
Arguments prop_default {A} p.
Arguments spec_type {A} t.
Arguments spec_name {A} t.
Arguments spec_properties {A} t.
Arguments spec_required {A} t.
Arguments model {A} r.
Arguments input {A} r.
Arguments tools {A} r.
Arguments previous_response_id {A} r.

(** ** Tools, dispatcher and agent turn *)

Section Agent.

Context {F : PyFloat}.

(** *** Keyword binding *)

(** The keyword arguments of a call. *)
Definition kwargs : Type := list (string * json float).

Fixpoint lookup {A : Type} (k : string) (l : list (string * A)) : option A :=
  match l with
  | [] => None
  | (k', v) :: l' => if String.eqb k k' then Some v else lookup k l'
  end.

(** A keyword that names no parameter makes the call raise [TypeError]. *)
Definition unexpected_keyword (params : list string) (kw : kwargs) : bool :=
  existsb (fun kv => negb (existsb (String.eqb (fst kv)) params)) kw.

(** A missing required argument makes the call raise [TypeError]. *)
Definition required_arg (k : string) (kw : kwargs) : raises (json float) :=
  match lookup k kw with
  | Some v => ret v
  | None => raise TypeError
  end.

(** Arguments are bound at the annotated parameter types: a JSON number
    for a [float] parameter (an integer is converted as Python's mixed
    arithmetic converts it), a JSON integer for an [int] parameter, [bool]
    being a subclass of [int].  Any other value is reported as a
    [TypeError] of the call; Python raises it later, at the first
    arithmetic use of the value. *)
Definition arg_float (v : json float) : raises float :=
  match v with
  | JFloat x => ret x
  | JInt z => float_of_int z
  | JBool b => float_of_int (Z.b2z b)
  | _ => raise TypeError
  end.

Definition arg_int (v : json float) : raises Z :=
  match v with
  | JInt z => ret z
  | JBool b => ret (Z.b2z b)
  | _ => raise TypeError
  end.

(** A Python callable applied to keyword arguments. *)
Definition tool : Type := kwargs -> raises (dict float).

Definition calculate_sip_projection_tool : tool := fun kw =>
  if unexpected_keyword
       ["monthly_investment"; "expected_annual_return_pct"; "years"] kw
  then raise TypeError
  else
    a <- required_arg "monthly_investment" kw ;;
    b <- required_arg "expected_annual_return_pct" kw ;;
    c <- required_arg "years" kw ;;
    monthly_investment <- arg_float a ;;
    expected_annual_return_pct <- arg_float b ;;
    years <- arg_int c ;;
    calculate_sip_projection monthly_investment expected_annual_return_pct
      years.

Definition plan_retirement_goal_tool : tool := fun kw =>
  if unexpected_keyword
       ["current_age"; "retirement_age"; "monthly_expense_today";
        "inflation_pct"; "expected_return_pct_during_accumulation";
        "current_corpus"] kw
  then raise TypeError
  else
    a <- required_arg "current_age" kw ;;
    b <- required_arg "retirement_age" kw ;;
    c <- required_arg "monthly_expense_today" kw ;;
    d <- required_arg "inflation_pct" kw ;;
    e <- required_arg "expected_return_pct_during_accumulation" kw ;;
    current_age <- arg_int a ;;
    retirement_age <- arg_int b ;;
    monthly_expense_today <- arg_float c ;;
    inflation_pct <- arg_float d ;;
    expected_return_pct_during_accumulation <- arg_float e ;;
    current_corpus <-
      match lookup "current_corpus" kw with
      | Some v => arg_float v
      | None => ret (float_lit 0 1)
      end ;;
    plan_retirement_goal current_age retirement_age monthly_expense_today
      inflation_pct expected_return_pct_during_accumulation current_corpus.

(** The call of [tool] on the unpacked [args], which must be a mapping. *)
Definition call (t : tool) (args : json float) : raises (dict float) :=
  match args with
  | JObject kw => t kw
  | _ => raise TypeError
  end.

(** Map tool name -> Python function. *)
Definition TOOL_MAPPING : list (string * tool) :=
  [("calculate_sip_projection", calculate_sip_projection_tool);
   ("plan_retirement_goal", plan_retirement_goal_tool)].

(** *** Tool schemas for the model *)

Definition number (n : string) : property float :=
  {| prop_name := n; prop_type := "number";
     prop_minimum := None; prop_default := None |}.

Definition integer (n : string) : property float :=
  {| prop_name := n; prop_type := "integer";
     prop_minimum := None; prop_default := None |}.

Definition TOOLS : list (tool_spec float) :=
  [{| spec_type := "function";
      spec_name := "calculate_sip_projection";
      spec_properties :=
        [number "monthly_investment";
         number "expected_annual_return_pct";
         {| prop_name := "years"; prop_type := "integer";
            prop_minimum := Some 1; prop_default := None |}];
      spec_required :=
        ["monthly_investment"; "expected_annual_return_pct"; "years"] |};
   {| spec_type := "function";
      spec_name := "plan_retirement_goal";
      spec_properties :=
        [integer "current_age";
         integer "retirement_age";
         number "monthly_expense_today";
         number "inflation_pct";
         number "expected_return_pct_during_accumulation";
         {| prop_name := "current_corpus"; prop_type := "number";
            prop_minimum := None; prop_default := Some (float_lit 0 1) |}];
      spec_required :=
        ["current_age"; "retirement_age"; "monthly_expense_today";
         "inflation_pct"; "expected_return_pct_during_accumulation"] |}].

Definition MODEL : string := "gpt-5-mini".

(** *** The dispatcher *)

(** The library functions [json.loads] and [json.dumps], and the text
    [str(e)] of an exception. *)
Variable json_loads : string -> raises (json float).
Variable json_dumps : dict float -> string.
Variable str : exception -> string.

Definition is_function_call (it : item) : bool :=
  String.eqb (type it) "function_call".

(** [try: ... except Exception as e: ...] *)
Definition try_except {A : Type} (body : raises A) (handler : exception -> A)
    : A :=
  match body with
  | inr a => a
  | inl e => handler e
  end.

(** Lines 217-232: the output of one requested call. *)
Definition tool_output_of (it : item) : dict float :=
  let tool_name := name it in
  match lookup tool_name TOOL_MAPPING with
  | None =>
      [("error",
        VStr ("No local implementation for tool '" ++ tool_name ++ "'"))]
  | Some tool =>
      try_except
        (args <- (if String.eqb (arguments it) "" then ret (JObject [])
                  else json_loads (arguments it)) ;;
         call tool args)
        (fun e =>
           [("error",
             VStr ("Exception while running tool '" ++ tool_name ++ "': "
                   ++ str e))])
  end.

(** One iteration of the loop over [response.output]. *)
Definition dispatch_item (messages_to_model : list function_call_output)
    (it : item) : list function_call_output :=
  if is_function_call it then
    (messages_to_model ++
       [{| out_type := "function_call_output";
           out_call_id := call_id it;
           out_output := json_dumps (tool_output_of it) |}])%list
  else messages_to_model.

Definition invoke_tools_from_response (response : Response)
    : list function_call_output :=
  fold_left dispatch_item (output response) [].

(** The arguments handed to the tool: [{}] when the payload is empty. *)
Definition parsed_arguments (it : item) : raises (json float) :=
  if String.eqb (arguments it) "" then ret (JObject [])
  else json_loads (arguments it).

(** The item the loop appends for the request [it]. *)
Definition result_of (it : item) : function_call_output :=
  {| out_type := "function_call_output";
     out_call_id := call_id it;
     out_output := json_dumps (tool_output_of it) |}.

(** *** The agent turn *)

(** The reasoning backend: a state machine answering one request at a
    time. *)
Variable backend : Type.
Variable backend_step : backend -> request float -> Response * backend.

(** The client: the backend's state and the requests issued so far. *)
Definition client : Type := (backend * list (request float))%type.

Definition responses_create (c : client) (req : request float)
    : Response * client :=
  let '(response, b) := backend_step (fst c) req in
  (response, (b, (snd c ++ [req])%list)).

(** The request that submits the tool outputs of [response]. *)
Definition resubmission (response : Response) : request float :=
  {| model := MODEL;
     input := ToolOutputs (invoke_tools_from_response response);
     tools := TOOLS;
     previous_response_id := Some (id response) |}.

(** The [while True] loop, run for at most [fuel] iterations. *)
Fixpoint agent_loop (fuel : nat) (c : client) (response : Response)
    : option (Response * client) :=
  match fuel with
  | O => None
  | S fuel' =>
      let function_messages := invoke_tools_from_response response in
      match function_messages with
      | [] => Some (response, c)
      | _ :: _ =>
          let '(response', c') :=
            responses_create c
              {| model := MODEL;
                 input := ToolOutputs function_messages;
                 tools := TOOLS;
                 previous_response_id := Some (id response) |} in
          agent_loop fuel' c' response'
      end
  end.

Definition first_request (user_input : string)
    (previous_response_id : option string) : request float :=
  {| model := MODEL;
     input := UserText user_input;
     tools := TOOLS;
     previous_response_id := previous_response_id |}.

Definition run_agent_turn (fuel : nat) (c : client) (user_input : string)
    (previous_response_id : option string) : option (Response * client) :=
  let '(response, c') :=
    responses_create c (first_request user_input previous_response_id) in
  agent_loop fuel c' response.

(** One more round-trip: the tool outputs of the latest response are
    submitted, and the backend answers. *)
Definition resubmit (rc : Response * client) : Response * client :=
  responses_create (snd rc) (resubmission (fst rc)).

(** The [i]-th exchange of a turn that keeps resubmitting: the response
    received and the client after it. *)
Definition exchange (i : nat) (c : client) (user_input : string)
    (previous_response_id : option string) : Response * client :=
  Nat.iter i resubmit
    (responses_create c (first_request user_input previous_response_id)).

(** The requests of the exchanges [0] to [m], in the order issued. *)
Definition issued_requests (m : nat) (c : client) (user_input : string)
    (previous_response_id : option string) : list (request float) :=
  first_request user_input previous_response_id
  :: map (fun i =>
            resubmission (fst (exchange i c user_input previous_response_id)))
       (seq 0 m).

(** The response carries at least one tool-invocation request. *)
Definition has_tool_requests (response : Response) : bool :=
  existsb is_function_call (output response).

End Agent.

Arguments responses_create {F backend} backend_step c req.
Arguments resubmit {F} json_loads json_dumps str {backend} backend_step rc.
Arguments exchange {F} json_loads json_dumps str {backend} backend_step.
Arguments issued_requests {F} json_loads json_dumps str {backend} backend_step.
Arguments agent_loop {F} json_loads json_dumps str {backend} backend_step.
Arguments run_agent_turn {F} json_loads json_dumps str {backend} backend_step.

(** ** Shapes of a calculator result *)

Section Shapes.

Context {A : Type}.

Definition has_key (k : string) (d : dict A) : bool :=
  existsb (String.eqb k) (keys d).

(** How many fields of [d] are named [k]. *)
Definition count_key (k : string) (d : dict A) : nat :=
  List.length (filter (String.eqb k) (keys d)).

(** The fields a calculator derives, as opposed to the inputs it echoes. *)
Definition sip_derived : list string :=
  ["total_invested"; "projected_value"; "projected_gain"].

Definition retirement_derived : list string :=
  ["years_to_retirement"; "target_monthly_at_retirement"; "required_corpus";
   "required_monthly_sip"].

(** All derived fields present and no error field. *)
Definition fully_successful (derived : list string) (d : dict A) : bool :=
  forallb (fun k => has_key k d) derived && negb (has_key "error" d).

(** Exactly one error field and no derived field. *)
Definition error_only (derived : list string) (d : dict A) : bool :=
  Nat.eqb (count_key "error" d) 1
  && forallb (fun k => negb (has_key k d)) derived.

(** Exactly one error field, the field [required_corpus], and no other
    derived field. *)
Definition error_with_required_corpus (d : dict A) : bool :=
  Nat.eqb (count_key "error" d) 1
  && has_key "required_corpus" d
  && forallb (fun k => negb (has_key k d))
       ["years_to_retirement"; "target_monthly_at_retirement";
        "required_monthly_sip"].

(** The float fields of a result: its monetary and percentage outputs. *)
Fixpoint float_fields (d : dict A) : list (string * A) :=
  match d with
  | [] => []
  | (k, VFloat x) :: d' => (k, x) :: float_fields d'
  | _ :: d' => float_fields d'
  end.

(** [x] is a value rounded to two decimals: rounding leaves it as it is. *)
Definition rounded2 {F : PyFloat} (x : float) : bool := feq (round2 x) x.

(** The fields the calculators pass through [round(_, 2)]. *)
Definition rounded_fields : list string :=
  ["total_invested"; "projected_value"; "projected_gain";
   "monthly_expense_today"; "current_corpus";
   "target_monthly_at_retirement"; "required_corpus";
   "required_monthly_sip"].

(** The float inputs the calculators echo as they are. *)
Definition echoed_fields : list string :=
  ["monthly_investment"; "expected_annual_return_pct"; "inflation_pct";
   "expected_return_pct_during_accumulation"].

End Shapes.

(** The invariant as the data model words it: fully successful, or one
    error field and no derived field. *)
Definition result_invariant {A : Type} (derived : list string)
    (d : dict A) : Prop :=
  fully_successful derived d = true \/ error_only derived d = true.

(** ** The formulas of the calculators, over the rationals *)

(** The future value of lines 31-34. *)
Definition annuity_future_value (monthly_investment r : Q) (n : Z) : Q :=
  if Qeq_bool r 0 then (monthly_investment * inject_Z n)%Q
  else (monthly_investment * (((1 + r) ^ n - 1) / r))%Q.

(** Lines 70-76. *)
Definition target_at_retirement (years : Z) (monthly_expense_today
    inflation_pct : Q) : Q :=
  (monthly_expense_today * (1 + inflation_pct / 100) ^ years)%Q.

Definition required_corpus_formula (years : Z) (monthly_expense_today
    inflation_pct : Q) : Q :=
  (target_at_retirement years monthly_expense_today inflation_pct * 12
   / (4 # 100))%Q.

(** Line 98. *)
Definition required_sip_formula (goal_amount r : Q) (n : Z) : Q :=
  (goal_amount * r / ((1 + r) ^ n - 1))%Q.


(** A binary64 float that carries the sign [s], or is a zero. *)
Definition has_sign (s : bool) (x : spec_float) : Prop :=
  match x with
  | S754_zero _ => True
  | S754_infinity s' => s' = s
  | S754_finite s' _ _ => s' = s
  | S754_nan => False
  end.

(** ** A scripted session

    Stand-ins for the library and the backend, to run the dispatcher and
    the turn loop on: a parser that knows three argument payloads, a
    printer that shows the error message of a result, and a backend that
    asks for tool calls once and then answers; its state counts the
    requests it has served. *)

Module Script.

Section Stubs.

Context {F : PyFloat}.

(** The payloads: a SIP projection, a retirement plan whose inflation
    overflows binary64, and text that is not JSON. *)
Definition json_loads (s : string) : raises (json float) :=
  if String.eqb s "sip" then
    ret (JObject [("monthly_investment", JInt 1000);
                  ("expected_annual_return_pct", JInt 12);
                  ("years", JInt 10)])
  else if String.eqb s "plan" then
    ret (JObject [("current_age", JInt 30);
                  ("retirement_age", JInt 60);
                  ("monthly_expense_today", JInt 50000);
                  ("inflation_pct", JInt 10000000000000);
                  ("expected_return_pct_during_accumulation", JInt 0)])
  else raise JSONDecodeError.

Definition json_dumps (d : dict float) : string :=
  match get "error" d with
  | Some (VStr message) => message
  | _ => "success"
  end.

Definition str (e : exception) : string :=
  match e with
  | TypeError => "TypeError"
  | ValueError => "ValueError"
  | OverflowError => "OverflowError"
  | ZeroDivisionError => "ZeroDivisionError"
  | JSONDecodeError => "JSONDecodeError"
  end.

Definition reasoning : item :=
  {| type := "reasoning"; name := ""; arguments := ""; call_id := "" |}.

Definition function_call (tool_name args call : string) : item :=
  {| type := "function_call"; name := tool_name; arguments := args;
     call_id := call |}.

(** A response with four requests: an unknown tool, a payload that does
    not parse, a calculator that raises, and a call that succeeds. *)
Definition requests : Response :=
  {| id := "resp_1";
     output :=
       [reasoning;
        function_call "get_stock_price" "sip" "call_1";
        function_call "calculate_sip_projection" "not json" "call_2";
        function_call "plan_retirement_goal" "plan" "call_3";
        reasoning;
        function_call "calculate_sip_projection" "sip" "call_4"];
     output_text := "" |}.

Definition answer : Response :=
  {| id := "resp_2"; output := [reasoning]; output_text := "done" |}.

Definition backend_step (served : nat) (_ : request float)
    : Response * nat :=
  match served with
  | O => (requests, 1%nat)
  | S _ => (answer, S served)
  end.

End Stubs.

End Script.

(** ** The command-line session

    [main] reads lines from standard input and writes to standard output.
    Standard input is the list of the lines still to be read (without
    their line ends); standard output is the list of the texts written so
    far.  Characters are the code points below 256. *)

(** [str.isspace] on one character. *)
Definition isspace (c : ascii) : bool :=
  let n := N_of_ascii c in
  ((9 <=? n) && (n <=? 13) || (28 <=? n) && (n <=? 32)
   || (n =? 133) || (n =? 160))%N.

Fixpoint lstrip (s : string) : string :=
  match s with
  | EmptyString => EmptyString
  | String c s' => if isspace c then lstrip s' else s
  end.

Fixpoint rstrip (s : string) : string :=
  match s with
  | EmptyString => EmptyString
  | String c s' =>
      match rstrip s' with
      | EmptyString => if isspace c then EmptyString else String c EmptyString
      | t => String c t
      end
  end.

(** [s.strip()] *)
Definition strip (s : string) : string := rstrip (lstrip s).

(** [str.lower] on one character: the capital letters, basic and
    accented, have their small letter 32 code points further. *)
Definition lower_char (c : ascii) : ascii :=
  let n := N_of_ascii c in
  if ((65 <=? n) && (n <=? 90)
      || (192 <=? n) && (n <=? 222) && negb (n =? 215))%N
  then ascii_of_N (n + 32)
  else c.

(** [s.lower()] *)
Fixpoint lower (s : string) : string :=
  match s with
  | EmptyString => EmptyString
  | String c s' => String (lower_char c) (lower s')
  end.

(** [s * n] *)
Fixpoint str_mul (s : string) (n : nat) : string :=
  match n with
  | O => ""
  | S n' => s ++ str_mul s n'
  end.

Definition newline : string := String "010" "".

(** [print(s)] *)
Definition print (s : string) (stdout : list string) : list string :=
  (stdout ++ [(s ++ newline)%string])%list.

(** All the characters of [s] are white space. *)
Fixpoint blank (s : string) : bool :=
  match s with
  | EmptyString => true
  | String c s' => isspace c && blank s'
  end.

(** How [main] ends: by [break], or with the [EOFError] that [input]
    raises at the end of standard input. *)
Inductive ending : Type :=
| Returns
| RaisesEOFError.

(** The state [main] leaves: how it ended, the lines not read, the texts
    written, and the client, of type [C]. *)
Record session (C : Type) : Type := {
  how : ending;
  unread : list string;
  written : list string;
  session_client : C
}.

Arguments how {C} s.
Arguments unread {C} s.
Arguments written {C} s.
Arguments session_client {C} s.

Section Session.

Context {F : PyFloat}.
Variable json_loads : string -> raises (json float).
Variable json_dumps : dict float -> string.
Variable str : exception -> string.
Variable backend : Type.
Variable backend_step : backend -> request float -> Response * backend.

Definition prompt : string := newline ++ "You: ".

Definition farewell : string :=
  "Agent: Bye! Remember, always double-check with a human advisor.".

(** [user.lower() in {"exit", "quit"}] *)
Definition is_exit_command (user : string) : bool :=
  existsb (String.eqb (lower user)) ["exit"; "quit"].

(** Lines 289-302: the [while True] loop of [main]; every iteration reads
    one line.  [fuel] bounds the iterations of each turn. *)
Fixpoint main_loop (fuel : nat) (stdin : list string) (stdout : list string)
    (c : client backend) (previous_response_id : option string)
    : option (session (client backend)) :=
  match stdin with
  | [] =>
      Some {| how := RaisesEOFError; unread := [];
              written := (stdout ++ [prompt])%list; session_client := c |}
  | line :: stdin' =>
      let stdout := (stdout ++ [prompt])%list in
      let user := strip line in
      if is_exit_command user then
        Some {| how := Returns; unread := stdin';
                written := print farewell stdout; session_client := c |}
      else
        match run_agent_turn json_loads json_dumps str backend_step fuel c
                user previous_response_id with
        | None => None
        | Some (response, c') =>
            let stdout := print (newline ++ "Agent:") stdout in
            let stdout := print (output_text response) stdout in
            main_loop fuel stdin' stdout c' (Some (id response))
        end
  end.

Definition banner : list string :=
  print (str_mul "=" 70)
    (print "Type 'exit' or 'quit' to stop."
       (print "  - Not investment advice; educational only"
          (print "  - Uses OpenAI Responses API + tool calling"
             (print " Simple Agentic AI Financial Planner (Demo)"
                (print (str_mul "=" 70) []))))).

Definition main (fuel : nat) (stdin : list string) (stdout : list string)
    (c : client backend) : option (session (client backend)) :=
  main_loop fuel stdin (stdout ++ banner)%list c None.

End Session.

Arguments main_loop {F} json_loads json_dumps str {backend} backend_step.
Arguments main {F} json_loads json_dumps str {backend} backend_step.

(** ** Arguments against a tool schema

    What a schema of [TOOLS] asks of the keyword arguments of a call: that
    every keyword names a property, that every required property is given,
    and that every value has the type of its property.  An [integer] is
    given as a JSON integer, a [number] as a JSON integer or float. *)

Section Schema.

Context {F : PyFloat}.

Definition property_of (spec : tool_spec float) (k : string)
    : option (property float) :=
  find (fun p => String.eqb (prop_name p) k) (spec_properties spec).

(** The keywords bind to the parameters: none is unknown, no required
    one is missing. *)
Definition binds (spec : tool_spec float) (kw : kwargs) : bool :=
  forallb (fun kv => match property_of spec (fst kv) with
                     | Some _ => true
                     | None => false
                     end) kw
  && forallb (fun k => match lookup k kw with
                       | Some _ => true
                       | None => false
                       end) (spec_required spec).

(** [v] has the schema type [ty] and is not below [minimum]. *)
Definition of_type (ty : string) (minimum : option Z) (v : json float)
    : bool :=
  match v with
  | JInt z =>
      (String.eqb ty "integer" || String.eqb ty "number")
      && match minimum with
         | Some lo => lo <=? z
         | None => true
         end
  | JFloat x =>
      String.eqb ty "number"
      && match minimum with
         | Some lo => match float_of_int lo with
                      | inr l => fle l x
                      | inl _ => false
                      end
         | None => true
         end
  | _ => false
  end.

Definition well_typed (spec : tool_spec float) (kw : kwargs) : bool :=
  forallb (fun kv => match property_of spec (fst kv) with
                     | Some p => of_type (prop_type p) (prop_minimum p) (snd kv)
                     | None => true
                     end) kw.

Definition conforms (spec : tool_spec float) (kw : kwargs) : bool :=
  binds spec kw && well_typed spec kw.

End Schema.

(** ** The conversation a list of requests makes

    The client logs its requests only; the responses are those the
    backend, a state machine, gives to them in order. *)

Section Conversation.

Context {F : PyFloat}.
Variable backend : Type.
Variable backend_step : backend -> request float -> Response * backend.

(** The backend's state and the identifier of its latest response, after
    one more request. *)
Definition serve (s : backend * option string) (req : request float)
    : backend * option string :=
  let '(response, b) := backend_step (fst s) req in (b, Some (id response)).

(** The responses to the requests [reqs], issued in this order to the
    backend in state [b]. *)
Fixpoint responses (b : backend) (reqs : list (request float))
    : list Response :=
  match reqs with
  | [] => []
  | req :: reqs' =>
      let '(response, b') := backend_step b req in
      response :: responses b' reqs'
  end.

(** The requests [reqs], issued in this order to the backend in state
    [fst s], make one conversation that continues the response [snd s]:
    each names the response to the one before it. *)
Fixpoint continues (s : backend * option string) (reqs : list (request float))
    : Prop :=
  match reqs with
  | [] => True
  | req :: reqs' =>
      previous_response_id req = snd s /\ continues (serve s req) reqs'
  end.

(** What every request of the client carries. *)
Definition carries_catalog (req : request float) : Prop :=
  tools req = TOOLS /\ model req = MODEL.

(** The texts of the user that the requests carry. *)
Definition user_inputs (reqs : list (request float)) : list string :=
  flat_map (fun req => match input req with
                       | UserText s => [s]
                       | ToolOutputs _ => []
                       end) reqs.

(** The responses that end a turn: those without tool requests. *)
Definition answers (rs : list Response) : list Response :=
  filter (fun r => negb (has_tool_requests r)) rs.

End Conversation.

Arguments serve {F backend} backend_step s req.
Arguments responses {F backend} backend_step b reqs.
Arguments continues {F backend} backend_step s reqs.

(** A backend that asks for the same tool calls whatever it is sent. *)
Module Insistent.

Definition backend_step {F : PyFloat} (served : nat) (_ : request float)
    : Response * nat :=
  (Script.requests, S served).

End Insistent.

(** * Properties *)

(** ** The error monad *)

Lemma bind_inr {A B : Type} (c : raises A) (k : A -> raises B) (b : B) :
  bind c k = inr b -> exists a, c = inr a /\ k a = inr b.
Proof.
  destruct c as [e | a]; simpl; intros H.
  - discriminate.
  - exists a. split; [reflexivity | exact H].
Qed.

(** One step through a calculator that returned: a [bind] that returned
    had both parts return, a conditional took one of its branches. *)
Ltac returned H :=
  repeat match type of H with
    | bind _ _ = inr _ =>
        let a := fresh "a" in
        let Ha := fresh "Ha" in
        apply bind_inr in H; destruct H as (a & Ha & H); cbv beta zeta in H
    | (if ?b then _ else _) = inr _ =>
        let Hb := fresh "Hb" in
        destruct b eqn:Hb
    | ret _ = inr _ => unfold ret in H
    end.

Local Open Scope Q_scope.

(** ** Rounding in exact arithmetic *)


(** The three cases of [round_half_even]. *)
Lemma round_half_even_cases (x : Q) :
  let f := Qfloor x in
  (x - inject_Z f < 1 # 2 /\ round_half_even x = f)
  \/ (x - inject_Z f == 1 # 2
      /\ round_half_even x = (if Z.even f then f else f + 1)%Z)
  \/ (1 # 2 < x - inject_Z f /\ round_half_even x = (f + 1)%Z).
Proof.
  intros f. unfold round_half_even. fold f.
  destruct (x - inject_Z f ?= 1 # 2) eqn:E.
  - right. left. split; [now apply Qeq_alt | reflexivity].
  - left. split; [now apply Qlt_alt | reflexivity].
  - right. right. split; [now apply Qgt_alt | reflexivity].
Qed.

(** The rounded value is within one half of the argument. *)
Lemma round_half_even_near (x : Q) :
  inject_Z (round_half_even x) - (1 # 2) <= x
  /\ x <= inject_Z (round_half_even x) + (1 # 2).
Proof.
  pose proof (Qfloor_le x) as Hlo. pose proof (Qlt_floor x) as Hhi.
  rewrite inject_Z_plus in Hhi. change (inject_Z 1) with 1 in Hhi.
  destruct (round_half_even_cases x) as [[H ->] | [[H ->] | [H ->]]];
    cbv zeta in H.
  - split; lra.
  - destruct (Z.even (Qfloor x));
      [| rewrite inject_Z_plus; change (inject_Z 1) with 1]; split; lra.
  - rewrite inject_Z_plus. change (inject_Z 1) with 1. split; lra.
Qed.

Lemma round_half_even_Z (k : Z) : round_half_even (inject_Z k) = k.
Proof.
  unfold round_half_even. rewrite Qfloor_Z.
  assert (E : (inject_Z k - inject_Z k ?= 1 # 2) = Lt).
  { rewrite <- Qlt_alt. lra. }
  now rewrite E.
Qed.

#[export] Instance round_half_even_comp : Proper (Qeq ==> eq) round_half_even.
Proof.
  intros x y E. unfold round_half_even.
  rewrite (Qfloor_comp x y E).
  assert (E' : x - inject_Z (Qfloor y) == y - inject_Z (Qfloor y))
    by now rewrite E.
  now rewrite (Qcompare_comp _ _ E' (1 # 2) (1 # 2) (Qeq_refl _)).
Qed.

(** Rounding half to even is monotone. *)
Lemma round_half_even_le (x y : Q) :
  x <= y -> (round_half_even x <= round_half_even y)%Z.
Proof.
  intros Hxy.
  pose proof (Qfloor_resp_le x y Hxy) as Hf.
  destruct (Z.eq_dec (Qfloor x) (Qfloor y)) as [Ef | Nf].
  - destruct (round_half_even_cases x) as [[Hx ->] | [[Hx ->] | [Hx ->]]];
      destruct (round_half_even_cases y) as [[Hy ->] | [[Hy ->] | [Hy ->]]];
      rewrite <- ?Ef in *; try lia;
      try (destruct (Z.even (Qfloor x)); lia);
      exfalso; lra.
  - assert (Hlt : (Qfloor x + 1 <= Qfloor y)%Z) by lia.
    assert (Hx : (round_half_even x <= Qfloor x + 1)%Z).
    { destruct (round_half_even_cases x) as [[_ ->] | [[_ ->] | [_ ->]]];
        try lia. destruct (Z.even (Qfloor x)); lia. }
    assert (Hy : (Qfloor y <= round_half_even y)%Z).
    { destruct (round_half_even_cases y) as [[_ ->] | [[_ ->] | [_ ->]]];
        try lia. destruct (Z.even (Qfloor y)); lia. }
    lia.
Qed.

(** [round(x, 2)] in exact arithmetic is monotone, fixes zero, and is
    idempotent. *)
Lemma exact_round2_le (x y : Q) :
  x <= y -> ExactArith.round2 x <= ExactArith.round2 y.
Proof.
  intros H. unfold ExactArith.round2, Qle. simpl.
  apply Z.mul_le_mono_nonneg_r; [lia |].
  apply round_half_even_le. lra.
Qed.

Lemma exact_round2_0 : ExactArith.round2 0 = 0 # 100.
Proof. reflexivity. Qed.

Lemma exact_round2_nonneg (x : Q) : 0 <= x -> 0 <= ExactArith.round2 x.
Proof.
  intros H. apply exact_round2_le in H. rewrite exact_round2_0 in H.
  assert (E : 0 # 100 == 0) by reflexivity. lra.
Qed.


Lemma exact_round2_idempotent (x : Q) :
  ExactArith.round2 (ExactArith.round2 x) = ExactArith.round2 x.
Proof.
  unfold ExactArith.round2.
  set (k := round_half_even (x * 100)).
  assert (E : (k # 100) * 100 == inject_Z k).
  { unfold Qeq, inject_Z. simpl. lia. }
  now rewrite (round_half_even_comp _ _ E), round_half_even_Z.
Qed.

Lemma exact_rounded2_round2 (x : Q) :
  rounded2 (F:=Exact) (round2 (F:=Exact) x) = true.
Proof.
  unfold rounded2. simpl. rewrite exact_round2_idempotent.
  apply Qeq_bool_refl.
Qed.

#[export] Instance exact_round2_comp : Proper (Qeq ==> Qeq) ExactArith.round2.
Proof.
  intros x y E. unfold ExactArith.round2.
  assert (E' : x * 100 == y * 100) by now rewrite E.
  now rewrite (round_half_even_comp _ _ E').
Qed.

(** ** The calculators in exact arithmetic *)


(** Bernoulli's inequality, the reason compounding never loses money. *)
Lemma bernoulli (r : Q) (k : nat) :
  0 <= r -> 1 + inject_Z (Z.of_nat k) * r <= (1 + r) ^ Z.of_nat k.
Proof.
  intros Hr. induction k as [| k IH].
  - change (Z.of_nat 0) with 0%Z. change (inject_Z 0) with 0.
    change ((1 + r) ^ 0) with 1. lra.
  - rewrite Nat2Z.inj_succ. unfold Z.succ.
    rewrite Qpower_plus by lra. rewrite inject_Z_plus.
    change (inject_Z 1) with 1. rewrite Qpower_1_r.
    assert (Hk : 0 <= inject_Z (Z.of_nat k)).
    { change 0 with (inject_Z 0). rewrite <- Zle_Qle. lia. }
    nra.
Qed.

Lemma bernoulli_Z (r : Q) (n : Z) :
  0 <= r -> (0 <= n)%Z -> 1 + inject_Z n * r <= (1 + r) ^ n.
Proof.
  intros Hr Hn. rewrite <- (Z2Nat.id n Hn). now apply bernoulli.
Qed.

(** The annuity denominator is positive for a positive rate. *)
Lemma annuity_denominator_positive (r : Q) (n : Z) :
  0 < r -> (0 < n)%Z -> 0 < (1 + r) ^ n - 1.
Proof.
  intros Hr Hn.
  assert (H : 1 < (1 + r) ^ n) by (apply Qpower_1_lt; [lra | exact Hn]).
  lra.
Qed.

(** The operations of the exact instance. *)
Lemma exact_truediv (x y : Q) :
  ~ y == 0 -> ftruediv (F:=Exact) x y = inr (x / y).
Proof.
  intros H. simpl. unfold ExactArith.truediv.
  destruct (Qeq_bool y 0) eqn:E; [| reflexivity].
  apply Qeq_bool_iff in E. contradiction.
Qed.

Lemma exact_math_pow (x : Q) (n : Z) :
  (0 <= n)%Z -> math_pow (F:=Exact) x n = inr (x ^ n).
Proof.
  intros H. simpl. unfold ExactArith.pow.
  assert (E : (n <? 0)%Z = false) by (apply Z.ltb_ge; exact H).
  now rewrite E, andb_false_r.
Qed.

Lemma exact_monthly_rate (pct : Q) :
  monthly_rate (F:=Exact) pct = inr (pct / 100 / 12).
Proof. reflexivity. Qed.

Lemma exact_mul_int (x : Q) (n : Z) :
  mul_int (F:=Exact) x n = inr (x * inject_Z n).
Proof. reflexivity. Qed.

Lemma exact_future_value (m r : Q) (n : Z) :
  (0 <= n)%Z ->
  future_value (F:=Exact) m r n = inr (annuity_future_value m r n).
Proof.
  intros Hn. unfold future_value, annuity_future_value.
  change (feq (F:=Exact) r f0) with (Qeq_bool r 0).
  destruct (Qeq_bool r 0) eqn:E.
  - apply exact_mul_int.
  - rewrite (exact_math_pow _ n Hn). cbn [bind].
    rewrite exact_truediv; [reflexivity |].
    intros H. apply Qeq_bool_iff in H. congruence.
Qed.

(** A result of [calculate_sip_projection] in exact arithmetic. *)
Lemma exact_calculate_sip_projection (m p : Q) (years : Z) :
  (1 <= years)%Z ->
  let r := p / 100 / 12 in
  let n := (years * 12)%Z in
  calculate_sip_projection (F:=Exact) m p years
  = inr [("monthly_investment", VFloat m);
         ("expected_annual_return_pct", VFloat p);
         ("years", VInt years);
         ("total_invested", VFloat (ExactArith.round2 (m * inject_Z n)));
         ("projected_value",
          VFloat (ExactArith.round2 (annuity_future_value m r n)));
         ("projected_gain",
          VFloat (ExactArith.round2
                    (annuity_future_value m r n - m * inject_Z n)))].
Proof.
  intros Hy r n. unfold calculate_sip_projection.
  assert (E : (years <=? 0)%Z = false) by (apply Z.leb_gt; lia).
  rewrite E, exact_monthly_rate. cbn [bind]. fold r n.
  rewrite exact_future_value by lia. cbn [bind].
  rewrite exact_mul_int. reflexivity.
Qed.

(** In exact arithmetic the annuity is worth at least what was paid in. *)
Lemma annuity_future_value_ge_total (m r : Q) (n : Z) :
  0 <= m -> 0 <= r -> (0 <= n)%Z ->
  m * inject_Z n <= annuity_future_value m r n.
Proof.
  intros Hm Hr Hn. unfold annuity_future_value.
  destruct (Qeq_bool r 0) eqn:E; [lra |].
  assert (Hr' : 0 < r).
  { apply Qeq_bool_neq in E. lra. }
  pose proof (bernoulli_Z r n Hr Hn) as B.
  assert (Hq : inject_Z n <= ((1 + r) ^ n - 1) / r).
  { apply Qle_shift_div_l; [exact Hr' | lra]. }
  nra.
Qed.

(** The monthly rate is the annual percentage scaled by [1/1200]. *)
Lemma monthly_rate_scale (pct : Q) : pct / 100 / 12 == pct * (1 # 1200).
Proof. field. Qed.

(** ** The retirement plan in exact arithmetic *)


Lemma exact_required_corpus_of (years : Z) (me infl : Q) :
  (0 <= years)%Z ->
  required_corpus_of (F:=Exact) years me infl
  = inr (target_at_retirement years me infl,
         required_corpus_formula years me infl).
Proof.
  intros Hy. unfold required_corpus_of.
  change (ftruediv (F:=Exact) infl f100) with (inr (B:=Q) (A:=exception) (infl / 100)).
  cbn [bind]. rewrite (exact_math_pow _ years Hy). cbn [bind].
  reflexivity.
Qed.

(** [max(x, 0)] in exact arithmetic. *)
Lemma exact_max0 (x : Q) : max0 (F:=Exact) x == Qmax x 0.
Proof.
  unfold max0. change (flt (F:=Exact) x f0) with (negb (Qle_bool 0 x)).
  destruct (Qle_bool 0 x) eqn:E; cbn [negb].
  - apply Qle_bool_iff in E. symmetry. now apply Q.max_l.
  - assert (H : ~ 0 <= x) by (rewrite <- Qle_bool_iff; congruence).
    symmetry. change f0 with 0. apply Q.max_r. lra.
Qed.



(** What [plan_retirement_goal] returns when the ages are in order: the
    "Invalid inputs" error when the monthly rate is not positive, a
    success otherwise. *)
Lemma exact_plan_retirement_goal (ca ra : Z) (me infl pct cc : Q) :
  (ca < ra)%Z ->
  let years := (ra - ca)%Z in
  let target := target_at_retirement years me infl in
  let corpus := required_corpus_formula years me infl in
  let r := pct / 100 / 12 in
  let n := (years * 12)%Z in
  plan_retirement_goal (F:=Exact) ca ra me infl pct cc
  = if Qle_bool r 0 then
      inr [("error", VStr "Invalid inputs for SIP calculation.");
           ("required_corpus", VFloat (ExactArith.round2 corpus))]
    else
      inr [("current_age", VInt ca);
           ("retirement_age", VInt ra);
           ("years_to_retirement", VInt years);
           ("monthly_expense_today", VFloat (ExactArith.round2 me));
           ("inflation_pct", VFloat infl);
           ("expected_return_pct_during_accumulation", VFloat pct);
           ("current_corpus", VFloat (ExactArith.round2 cc));
           ("target_monthly_at_retirement",
            VFloat (ExactArith.round2 target));
           ("required_corpus", VFloat (ExactArith.round2 corpus));
           ("required_monthly_sip",
            VFloat (ExactArith.round2
                      (required_sip_formula
                         (max0 (F:=Exact) (corpus - cc)) r n)))].
Proof.
  intros Hages years target corpus r n. unfold plan_retirement_goal.
  fold years.
  assert (E : (years <=? 0)%Z = false) by (apply Z.leb_gt; lia).
  rewrite E, exact_required_corpus_of by lia.
  cbn [bind fst snd]. rewrite exact_monthly_rate. cbn [bind].
  fold r n corpus target.
  assert (En : (n <=? 0)%Z = false) by (apply Z.leb_gt; lia).
  rewrite En. cbn [orb].
  change (fle (F:=Exact) r f0) with (Qle_bool r 0).
  destruct (Qle_bool r 0) eqn:Er; [reflexivity |].
  assert (Hr : 0 < r).
  { apply Qnot_le_lt. rewrite <- Qle_bool_iff. congruence. }
  rewrite exact_math_pow by lia. cbn [bind].
  pose proof (annuity_denominator_positive r n Hr ltac:(lia)) as Hd.
  change (feq (F:=Exact)
            (fsub (F:=Exact)
               (fadd (F:=Exact) (f1 (F:=Exact)) r ^ n) (f1 (F:=Exact)))
            (f0 (F:=Exact)))
    with (Qeq_bool ((1 + r) ^ n - 1) 0).
  destruct (Qeq_bool ((1 + r) ^ n - 1) 0) eqn:Ed.
  { apply Qeq_bool_iff in Ed. lra. }
  assert (Hd' : ~ (1 + r) ^ n - 1 == 0) by lra.
  rewrite exact_truediv by exact Hd'. reflexivity.
Qed.

#[export] Instance required_sip_formula_comp :
  Proper (Qeq ==> Qeq ==> eq ==> Qeq) required_sip_formula.
Proof.
  intros g g' Eg r r' Er n n' <-. unfold required_sip_formula.
  now rewrite Eg, Er.
Qed.



Local Close Scope Q_scope.

(** ** Signs in binary64 *)

(** Rounding a non-negative mantissa keeps the sign it is given: the
    shifts and the rounding step keep the mantissa non-negative. *)
Lemma shr_1_nonneg (mrs : shr_record) :
  0 <= shr_m mrs -> 0 <= shr_m (shr_1 mrs).
Proof.
  destruct mrs as [m r s]. simpl.
  destruct m as [| [p | p |] | p]; simpl; lia.
Qed.

Lemma iter_shr_1_nonneg (p : positive) :
  forall mrs : shr_record,
    0 <= shr_m mrs -> 0 <= shr_m (iter_pos shr_1 p mrs).
Proof.
  induction p as [p IH | p IH |]; intros mrs H; simpl.
  - apply IH, IH, shr_1_nonneg, H.
  - apply IH, IH, H.
  - apply shr_1_nonneg, H.
Qed.

Lemma shr_fexp_nonneg (m e : Z) (l : location) :
  0 <= m -> 0 <= shr_m (fst (shr_fexp IEEE.prec IEEE.emax m e l)).
Proof.
  intros H. unfold shr_fexp, shr.
  assert (H0 : 0 <= shr_m (shr_record_of_loc m l)).
  { destruct l as [| []]; exact H. }
  destruct (fexp IEEE.prec IEEE.emax (Zdigits2 m + e) - e); simpl;
    try exact H0.
  now apply iter_shr_1_nonneg.
Qed.

Lemma round_nearest_even_nonneg (m : Z) (l : location) :
  0 <= m -> 0 <= round_nearest_even m l.
Proof.
  intros H. destruct l as [| []]; simpl; try lia.
  destruct (Z.even m); lia.
Qed.

Lemma binary_round_aux_sign (s : bool) (m e : Z) (l : location) :
  0 <= m -> has_sign s (binary_round_aux IEEE.prec IEEE.emax s m e l).
Proof.
  intros H. unfold binary_round_aux.
  pose proof (shr_fexp_nonneg m e l H) as H1.
  destruct (shr_fexp IEEE.prec IEEE.emax m e l) as [mrs' e'].
  cbn [fst] in H1.
  pose proof (shr_fexp_nonneg _ e' loc_Exact
                (round_nearest_even_nonneg _ (loc_of_shr_record mrs') H1))
    as H2.
  destruct (shr_fexp IEEE.prec IEEE.emax _ e' loc_Exact) as [mrs'' e''].
  cbn [fst] in H2.
  destruct (shr_m mrs'') as [| p | p]; simpl.
  - exact I.
  - match goal with
    | |- has_sign _ (if ?c then _ else _) => destruct c
    end; simpl; reflexivity.
  - lia.
Qed.




(** ** Worked examples *)

Local Open Scope Q_scope.





(** In binary64 the guard [denom == 0] does fire: for the return
    percentage [1e-15] the monthly rate is positive, [1 + r] rounds to
    [1.0], and [plan_retirement_goal(30, 60, 50000, 6, 1e-15)] returns the
    "Mathematical error" result. *)
Lemma mathematical_error_reached_binary64 :
  plan_retirement_goal (F:=Binary64) 30 60 (float_lit 50000 1)
    (float_lit 6 1) (float_lit 1 1000000000000000) (float_lit 0 1)
  = inr [("error", VStr "Mathematical error in SIP calculation.");
         ("required_corpus", VFloat (float_lit 8615236759 100))].
Proof. vm_compute. reflexivity. Qed.

(** In binary64 [math.pow] raises when the inflated expense leaves the
    float range: [plan_retirement_goal(30, 60, 50000, 1e13, 0)] raises
    [OverflowError]. *)
Lemma inflation_overflow_binary64 :
  plan_retirement_goal (F:=Binary64) 30 60 (float_lit 50000 1)
    (float_lit 10000000000000 1) (float_lit 0 1) (float_lit 0 1)
  = inl OverflowError.
Proof. vm_compute. reflexivity. Qed.

Local Close Scope Q_scope.

(** ** C1: the dispatcher *)

Section Dispatcher.

Context {F : PyFloat}.
Variable json_loads : string -> raises (json float).
Variable json_dumps : dict float -> string.
Variable str : exception -> string.

(** The loop appends, to what it has, one item per request, in order. *)
Lemma fold_left_dispatch_item (l : list item)
    (acc : list function_call_output) :
  fold_left (dispatch_item json_loads json_dumps str) l acc
  = (acc ++ map (result_of json_loads json_dumps str) (filter is_function_call l))%list.
Proof.
  revert acc. induction l as [| it l IH]; intros acc; simpl.
  - now rewrite app_nil_r.
  - rewrite IH. unfold dispatch_item.
    destruct (is_function_call it); simpl.
    + now rewrite <- app_assoc.
    + reflexivity.
Qed.


End Dispatcher.

(** The dispatcher on the scripted response, in binary64: four requests,
    four outputs in order; the unknown tool, the unparsable payload and
    the calculator that raises each yield an error payload. *)
Lemma invoke_tools_from_response_example :
  invoke_tools_from_response (F:=Binary64) Script.json_loads
    Script.json_dumps Script.str Script.requests
  = [{| out_type := "function_call_output"; out_call_id := "call_1";
        out_output := "No local implementation for tool 'get_stock_price'" |};
     {| out_type := "function_call_output"; out_call_id := "call_2";
        out_output :=
          "Exception while running tool 'calculate_sip_projection': JSONDecodeError" |};
     {| out_type := "function_call_output"; out_call_id := "call_3";
        out_output :=
          "Exception while running tool 'plan_retirement_goal': OverflowError" |};
     {| out_type := "function_call_output"; out_call_id := "call_4";
        out_output := "success" |}].
Proof. vm_compute. reflexivity. Qed.

(** ** C2: the agent turn *)

Section Turn.

Context {F : PyFloat}.
Variable json_loads : string -> raises (json float).
Variable json_dumps : dict float -> string.
Variable str : exception -> string.
Variable backend : Type.
Variable backend_step : backend -> request float -> Response * backend.

Abbreviation invoke := (invoke_tools_from_response json_loads json_dumps str).
Abbreviation loop := (agent_loop json_loads json_dumps str backend_step).
Abbreviation exchange_ := (exchange json_loads json_dumps str backend_step).
Abbreviation resubmit_ := (resubmit json_loads json_dumps str backend_step).
Abbreviation issued_ := (issued_requests json_loads json_dumps str backend_step).

(** The dispatcher returns nothing exactly when the response carries no
    tool-invocation request. *)
Lemma invoke_nil_iff (response : Response) :
  invoke response = [] <-> has_tool_requests response = false.
Proof.
  unfold invoke_tools_from_response, has_tool_requests.
  rewrite fold_left_dispatch_item. simpl.
  induction (output response) as [| it l IH]; simpl.
  - tauto.
  - destruct (is_function_call it); simpl.
    + split; discriminate.
    + exact IH.
Qed.

(** The loop, started on a response that is followed by [k] rounds of
    tool requests, stops after exactly [k] resubmissions. *)
Lemma agent_loop_iter (k : nat) :
  forall (fuel : nat) (rc : Response * client backend),
    (forall i, (i < k)%nat ->
               has_tool_requests (fst (Nat.iter i resubmit_ rc)) = true) ->
    has_tool_requests (fst (Nat.iter k resubmit_ rc)) = false ->
    (k < fuel)%nat ->
    loop fuel (snd rc) (fst rc) = Some (Nat.iter k resubmit_ rc).
Proof.
  induction k as [| k IH]; intros fuel [r c] Hcalls Hlast Hfuel;
    destruct fuel as [| fuel]; try lia.
  - simpl in *. apply invoke_nil_iff in Hlast. rewrite Hlast. reflexivity.
  - assert (H0 : has_tool_requests r = true) by (apply (Hcalls 0%nat); lia).
    cbn [agent_loop fst snd].
    destruct (invoke r) as [| o os] eqn:E.
    + apply invoke_nil_iff in E. congruence.
    + rewrite <- E.
      change (responses_create backend_step c
                {| model := MODEL; input := ToolOutputs (invoke r);
                   tools := TOOLS; previous_response_id := Some (id r) |})
        with (resubmit_ (r, c)).
      rewrite Nat.iter_succ_r in Hlast.
      destruct (resubmit_ (r, c)) as [r' c'] eqn:E'.
      change (loop fuel c' r') with (loop fuel (snd (r', c')) (fst (r', c'))).
      rewrite (IH fuel (r', c')).
      * rewrite Nat.iter_succ_r, E'. reflexivity.
      * intros i Hi. rewrite <- E', <- Nat.iter_succ_r.
        apply Hcalls. lia.
      * exact Hlast.
      * lia.
Qed.

(** The client's log after the exchange [m]. *)
Lemma exchange_log (m : nat) (c : client backend) (user_input : string)
    (prev : option string) :
  snd (snd (exchange_ m c user_input prev))
  = (snd c ++ issued_ m c user_input prev)%list.
Proof.
  induction m as [| m IH].
  - unfold exchange, issued_requests, responses_create. simpl.
    destruct (backend_step (fst c) (first_request user_input prev)).
    reflexivity.
  - unfold exchange in *. simpl Nat.iter.
    unfold resubmit at 1. unfold responses_create at 1.
    destruct (backend_step _ _) as [r b]. cbn [snd fst].
    rewrite IH. unfold issued_requests.
    rewrite seq_S, map_app. simpl.
    rewrite <- app_assoc. reflexivity.
Qed.

(** C2.  Consider a turn in which the first [m] responses carry
    tool-invocation requests and the next one carries none ([m = 0]: the
    first response carries none).  Given fuel for more than [m]
    iterations, [run_agent_turn] returns that last response, and the
    client has issued exactly [m + 1] requests on the way: the first with
    the user's input and the caller's continuation identifier, the
    [i+1]-th with the tool outputs and the identifier of the [i]-th
    response, and every one with the catalog [TOOLS]. *)
Theorem run_agent_turn_round_trips (m fuel : nat) (c : client backend)
    (user_input : string) (prev : option string) :
  (forall i, (i < m)%nat ->
             has_tool_requests (fst (exchange_ i c user_input prev)) = true) ->
  has_tool_requests (fst (exchange_ m c user_input prev)) = false ->
  (m < fuel)%nat ->
  let issued := issued_ m c user_input prev in
  run_agent_turn json_loads json_dumps str backend_step fuel c user_input prev
  = Some (exchange_ m c user_input prev)
  /\ snd (snd (exchange_ m c user_input prev)) = (snd c ++ issued)%list
  /\ List.length issued = (m + 1)%nat
  /\ Forall (fun req => tools req = TOOLS) issued
  /\ (exists req, nth_error issued 0 = Some req
                  /\ input req = UserText user_input
                  /\ previous_response_id req = prev)
  /\ (forall i, (i < m)%nat ->
        let response := fst (exchange_ i c user_input prev) in
        exists req, nth_error issued (S i) = Some req
                    /\ input req = ToolOutputs (invoke response)
                    /\ previous_response_id req = Some (id response)).
Proof.
  intros Hcalls Hlast Hfuel issued. repeat split.
  - unfold run_agent_turn.
    destruct (responses_create backend_step c
                (first_request user_input prev)) as [r c'] eqn:E.
    change (loop fuel c' r) with (loop fuel (snd (r, c')) (fst (r, c'))).
    rewrite (agent_loop_iter m); unfold exchange in *; rewrite ?E in *;
      auto.
  - apply exchange_log.
  - unfold issued, issued_requests. simpl.
    rewrite length_map, length_seq. lia.
  - unfold issued, issued_requests. constructor; [reflexivity |].
    apply Forall_forall. intros req Hin. apply in_map_iff in Hin.
    destruct Hin as (i & <- & _). reflexivity.
  - eexists. simpl. repeat split.
  - intros i Hi response.
    exists (resubmission json_loads json_dumps str response).
    split; [| split; reflexivity].
    unfold issued, issued_requests. simpl nth_error.
    rewrite nth_error_map, nth_error_seq.
    destruct (Nat.ltb_spec i m); [| lia]. reflexivity.
Qed.

End Turn.

(** C2 on the scripted backend: one round of tool requests, two
    round-trips. *)
Lemma run_agent_turn_round_trips_witness :
  let c : client (F:=Exact) nat := (0%nat, []) in
  let run :=
    run_agent_turn (F:=Exact) Script.json_loads Script.json_dumps Script.str
      Script.backend_step 2 c "hello" None in
  let last :=
    exchange (F:=Exact) Script.json_loads Script.json_dumps Script.str
      Script.backend_step 1 c "hello" None in
  (1 < 2)%nat
  /\ run = Some last
  /\ List.length (snd (snd last)) = 2%nat.
Proof.
  intros c run last.
  destruct (run_agent_turn_round_trips (F:=Exact) Script.json_loads Script.json_dumps
              Script.str nat Script.backend_step 1 2 c "hello" None)
    as (Hrun & Hlog & Hlen & _).
  - intros i Hi. assert (i = 0%nat) as -> by lia. reflexivity.
  - reflexivity.
  - lia.
  - split; [lia |]. split; [exact Hrun |].
    unfold last. rewrite Hlog. cbv zeta in Hlen.
    unfold c. cbn [snd app]. exact Hlen.
Defined.

(** ** C3: the SIP projection *)

Local Open Scope Q_scope.




Local Close Scope Q_scope.

(** ** C4: the shape of a calculator result *)

(** C4, as amended.  In either arithmetic, a result of
    [calculate_sip_projection] is fully successful or carries exactly one
    error field and no derived field; a result of [plan_retirement_goal]
    is fully successful, or carries exactly one error field and no derived
    field, or carries exactly one error field together with
    [required_corpus] and no other derived field, the error then being one
    of the two SIP messages. *)
Theorem calculator_result_shape {F : PyFloat} :
  (forall (m p : float) (y : Z) (d : dict float),
      calculate_sip_projection m p y = inr d ->
      result_invariant sip_derived d)
  /\
  (forall (ca ra : Z) (me infl pct cc : float) (d : dict float),
      plan_retirement_goal ca ra me infl pct cc = inr d ->
      result_invariant retirement_derived d
      \/ (error_with_required_corpus d = true
          /\ (get "error" d
              = Some (VStr "Invalid inputs for SIP calculation.")
              \/ get "error" d
                 = Some (VStr "Mathematical error in SIP calculation.")))).
Proof.
  split.
  - intros m p y d H. unfold calculate_sip_projection in H.
    returned H; injection H as <-.
    + right. reflexivity.
    + left. reflexivity.
  - intros ca ra me infl pct cc d H. unfold plan_retirement_goal in H.
    returned H; injection H as <-.
    + left. right. reflexivity.
    + right. split; [reflexivity | left; reflexivity].
    + right. split; [reflexivity | right; reflexivity].
    + left. left. reflexivity.
Qed.

(** C4 as the claim states it fails on [plan_retirement_goal(30, 60, 50000,
    6, 0)]: the result carries an error field and the derived field
    [required_corpus]. *)
Lemma result_invariant_counterexample :
  exists d : dict spec_float,
    plan_retirement_goal 30 60 (float_lit 50000 1) (float_lit 6 1)
      (float_lit 0 1) (float_lit 0 1) = inr d
    /\ ~ result_invariant retirement_derived d.
Proof.
  let r := eval vm_compute in
    (@plan_retirement_goal Binary64 30 60 (float_lit 50000 1) (float_lit 6 1)
       (float_lit 0 1) (float_lit 0 1)) in
  match r with inr ?d => exists d end.
  split.
  - vm_compute. reflexivity.
  - intros [H | H]; vm_compute in H; discriminate H.
Qed.

(** ** C5: which fields are rounded *)

Local Open Scope Q_scope.

(** Closes a goal about one float field of an explicit result: the field
    is the rounding of something, or it is the named input. *)
Ltac field_case :=
  match goal with
  | |- (In ?k rounded_fields /\ _) \/ _ =>
      first [ left; split;
              [ cbn; tauto | apply exact_rounded2_round2 ]
            | right; field_case ]
  | |- (_ = _ /\ _ = _) \/ _ =>
      first [ left; split; reflexivity | right; field_case ]
  | |- _ = _ /\ _ = _ => split; reflexivity
  end.

(** C5, as amended.  In exact arithmetic, every float field of a result
    of either calculator is one of the fields passed through
    [round(_, 2)] ([total_invested], [projected_value], [projected_gain],
    [monthly_expense_today], [current_corpus],
    [target_monthly_at_retirement], [required_corpus],
    [required_monthly_sip]), and is then rounded to two decimals, or it
    is an echoed input ([monthly_investment],
    [expected_annual_return_pct], [inflation_pct],
    [expected_return_pct_during_accumulation]), returned as given.  In
    either arithmetic the rounded fields are roundings of unrounded
    intermediates: the gain is the rounding of the difference of the
    unrounded future value and total, and the contribution is computed
    from the unrounded corpus. *)
Theorem rounded_and_echoed_fields :
  (forall (m p : Q) (years : Z) (d : dict Q) (k : string) (x : Q),
      calculate_sip_projection (F:=Exact) m p years = inr d ->
      In (k, x) (float_fields d) ->
      (In k rounded_fields /\ rounded2 (F:=Exact) x = true)
      \/ (k = "monthly_investment" /\ x = m)
      \/ (k = "expected_annual_return_pct" /\ x = p))
  /\
  (forall (ca ra : Z) (me infl pct cc : Q) (d : dict Q) (k : string)
          (x : Q),
      plan_retirement_goal (F:=Exact) ca ra me infl pct cc = inr d ->
      In (k, x) (float_fields d) ->
      (In k rounded_fields /\ rounded2 (F:=Exact) x = true)
      \/ (k = "inflation_pct" /\ x = infl)
      \/ (k = "expected_return_pct_during_accumulation" /\ x = pct))
  /\
  (forall (F : PyFloat) (m p : float) (years : Z) (d : dict float),
      calculate_sip_projection m p years = inr d ->
      (0 < years)%Z ->
      exists r fv total : float,
        monthly_rate p = inr r
        /\ future_value m r (years * 12) = inr fv
        /\ mul_int m (years * 12) = inr total
        /\ get "total_invested" d = Some (VFloat (round2 total))
        /\ get "projected_value" d = Some (VFloat (round2 fv))
        /\ get "projected_gain" d = Some (VFloat (round2 (fsub fv total))))
  /\
  (forall (F : PyFloat) (ca ra : Z) (me infl pct cc : float)
          (d : dict float),
      plan_retirement_goal ca ra me infl pct cc = inr d ->
      fully_successful retirement_derived d = true ->
      exists target corpus r p sip : float,
        required_corpus_of (ra - ca) me infl = inr (target, corpus)
        /\ monthly_rate pct = inr r
        /\ math_pow (fadd f1 r) ((ra - ca) * 12) = inr p
        /\ ftruediv (fmul (max0 (fsub corpus cc)) r) (fsub p f1) = inr sip
        /\ get "target_monthly_at_retirement" d
           = Some (VFloat (round2 target))
        /\ get "required_corpus" d = Some (VFloat (round2 corpus))
        /\ get "required_monthly_sip" d = Some (VFloat (round2 sip))).
Proof.
  split; [| split; [| split]].
  - intros m p years d k x Hd Hin.
    destruct (Z.le_gt_cases years 0) as [Hy | Hy].
    + unfold calculate_sip_projection in Hd.
      assert (E : (years <=? 0)%Z = true) by (apply Z.leb_le; exact Hy).
      rewrite E in Hd.
      injection Hd as <-. destruct Hin.
    + rewrite exact_calculate_sip_projection in Hd by lia.
      injection Hd as <-. cbn [float_fields In] in Hin.
      repeat (destruct Hin as [Hin | Hin];
              [injection Hin as <- <-; field_case |]).
      destruct Hin.
  - intros ca ra me infl pct cc d k x Hd Hin.
    destruct (Z.le_gt_cases ra ca) as [Hages | Hages].
    + unfold plan_retirement_goal in Hd.
      assert (E : (ra - ca <=? 0)%Z = true) by (apply Z.leb_le; lia).
      rewrite E in Hd. injection Hd as <-. destruct Hin.
    + rewrite exact_plan_retirement_goal in Hd by lia.
      destruct (Qle_bool (pct / 100 / 12) 0); injection Hd as <-;
        cbn [float_fields In] in Hin;
        repeat (destruct Hin as [Hin | Hin];
                [injection Hin as <- <-; field_case |]);
        destruct Hin.
  - intros F m p years d Hd Hy. unfold calculate_sip_projection in Hd.
    assert (E : (years <=? 0)%Z = false) by (apply Z.leb_gt; lia).
    rewrite E in Hd. returned Hd. injection Hd as <-.
    do 3 eexists. repeat split; eassumption || reflexivity.
  - intros F ca ra me infl pct cc d Hd Hs.
    unfold plan_retirement_goal in Hd. returned Hd; injection Hd as <-;
      try discriminate Hs.
    destruct a as [target corpus]. cbn [fst snd] in *.
    do 5 eexists. repeat split; eassumption || reflexivity.
Qed.

(** C5 as the claim states it fails on an echoed input:
    [calculate_sip_projection(1000.123, 12, 10)] returns
    [monthly_investment = 1000.123], which is not rounded to two
    decimals, in binary64 and in exact arithmetic. *)
Lemma echoed_input_not_rounded_counterexample :
  (exists d : dict spec_float,
      calculate_sip_projection (F:=Binary64) (float_lit 1000123 1000)
        (float_lit 12 1) 10 = inr d
      /\ In ("monthly_investment", float_lit 1000123 1000) (float_fields d)
      /\ rounded2 (F:=Binary64) (float_lit 1000123 1000) = false)
  /\ (exists d : dict Q,
         calculate_sip_projection (F:=Exact) 1000.123 12 10 = inr d
         /\ In ("monthly_investment", 1000.123) (float_fields d)
         /\ rounded2 (F:=Exact) 1000.123 = false).
Proof.
  split.
  - let r := eval vm_compute in
      (calculate_sip_projection (F:=Binary64) (float_lit 1000123 1000)
         (float_lit 12 1) 10) in
    match r with inr ?d => exists d end.
    split; [vm_compute; reflexivity |].
    split; [left; vm_compute; reflexivity | vm_compute; reflexivity].
  - let r := eval vm_compute in
      (calculate_sip_projection (F:=Exact) 1000.123 12 10) in
    match r with inr ?d => exists d end.
    split; [vm_compute; reflexivity |].
    split; [left; reflexivity | vm_compute; reflexivity].
Qed.

Local Close Scope Q_scope.

(** ** C6: a non-positive return *)

Local Open Scope Q_scope.



Local Close Scope Q_scope.

(** ** C7: the goal amount is never negative *)

Local Open Scope Q_scope.



Local Close Scope Q_scope.

(** ** C8: the gain of a projection *)

Local Open Scope Q_scope.

(** In exact arithmetic, for [monthly_investment >= 0],
    [annual_return_pct >= 0] and [years >= 1], the projected value
    returned is at least the total invested. *)
Lemma exact_projected_value_ge_total_invested (m p : Q) (years : Z) :
  0 <= m -> 0 <= p -> (1 <= years)%Z ->
  exists total projected gain : Q,
    calculate_sip_projection (F:=Exact) m p years
    = inr [("monthly_investment", VFloat m);
           ("expected_annual_return_pct", VFloat p);
           ("years", VInt years);
           ("total_invested", VFloat total);
           ("projected_value", VFloat projected);
           ("projected_gain", VFloat gain)]
    /\ total <= projected /\ 0 <= gain.
Proof.
  intros Hm Hp Hy. do 3 eexists. split.
  - now apply exact_calculate_sip_projection.
  - assert (Hr : 0 <= p / 100 / 12) by (rewrite monthly_rate_scale; lra).
    pose proof (annuity_future_value_ge_total m _ (years * 12) Hm Hr
                  ltac:(lia)) as H.
    split.
    + now apply exact_round2_le.
    + apply exact_round2_nonneg.
      change (fsub (F:=Exact) ?a ?b) with (a - b). lra.
Qed.

(** C8 on the code.  CPython evaluates
    [calculate_sip_projection(1000, 1e-15, 10)] in binary64: the monthly
    rate is positive but [1 + r] rounds to [1.0], so the annuity factor is
    [0.0]; the result has [total_invested = 120000.0],
    [projected_value = 0.0] and [projected_gain = -120000.0], although
    [monthly_investment >= 0], [annual_return_pct >= 0] and
    [years >= 1]. *)
Theorem calculate_sip_projection_tiny_rate_binary64 :
  calculate_sip_projection (F:=Binary64) (float_lit 1000 1)
    (float_lit 1 1000000000000000) 10
  = inr [("monthly_investment", VFloat (float_lit 1000 1));
         ("expected_annual_return_pct",
          VFloat (float_lit 1 1000000000000000));
         ("years", VInt 10);
         ("total_invested", VFloat (float_lit 120000 1));
         ("projected_value", VFloat (float_lit 0 1));
         ("projected_gain", VFloat (float_lit (-120000) 1))]
  /\ fle (F:=Binary64) (float_lit 0 1) (float_lit 1000 1) = true
  /\ flt (F:=Binary64) (float_lit 0 1)
       (float_lit 1 1000000000000000) = true
  /\ flt (F:=Binary64) (float_lit 0 1) (float_lit 120000 1) = true
  /\ fadd (F:=Binary64) (float_lit 1 1)
       (SFdiv IEEE.prec IEEE.emax
          (SFdiv IEEE.prec IEEE.emax (float_lit 1 1000000000000000)
             (float_lit 100 1))
          (float_lit 12 1))
     = float_lit 1 1.
Proof.
  repeat split; vm_compute; reflexivity.
Qed.

Local Close Scope Q_scope.

(** ** C9: non-positive years *)

(** C9. For every [monthly_investment] and [annual_return_pct], in either
    arithmetic, [calculate_sip_projection] called with [years <= 0]
    returns exactly the dictionary with the single field
    [error = "Years must be > 0"]; it returns, so no exception
    propagates. *)
Theorem calculate_sip_projection_years_not_positive
    {F : PyFloat} (monthly_investment annual_return_pct : float) (years : Z) :
  years <= 0 ->
  calculate_sip_projection monthly_investment annual_return_pct years
  = inr [("error", VStr "Years must be > 0")].
Proof.
  intros Hy. unfold calculate_sip_projection.
  apply Z.leb_le in Hy. rewrite Hy. reflexivity.
Qed.

Lemma calculate_sip_projection_years_not_positive_witness :
  0 <= 0 /\
  @calculate_sip_projection Binary64 (float_lit 1000 1) (float_lit 12 1) 0
  = inr [("error", VStr "Years must be > 0")].
Proof.
  split; [lia |].
  apply (@calculate_sip_projection_years_not_positive Binary64); lia.
Defined.

(** ** C10: the degenerate branches of the retirement plan *)

Local Open Scope Q_scope.



Local Close Scope Q_scope.

(** * Further properties *)

Local Open Scope Q_scope.

(** ** Exceptions of the calculators *)

Lemma exact_calculate_sip_projection_returns (m p : Q) (y : Z) :
  exists d : dict Q, calculate_sip_projection (F:=Exact) m p y = inr d.
Proof.
  destruct (Z.le_gt_cases y 0) as [Hy | Hy].
  - eexists. unfold calculate_sip_projection.
    apply Z.leb_le in Hy. rewrite Hy. reflexivity.
  - eexists. apply exact_calculate_sip_projection. lia.
Qed.

Lemma exact_plan_retirement_goal_returns (ca ra : Z) (me infl pct cc : Q) :
  exists d : dict Q,
    plan_retirement_goal (F:=Exact) ca ra me infl pct cc = inr d.
Proof.
  destruct (Z.le_gt_cases ra ca) as [Ha | Ha].
  - eexists. unfold plan_retirement_goal.
    assert (E : (ra - ca <=? 0)%Z = true) by (apply Z.leb_le; lia).
    rewrite E. reflexivity.
  - rewrite exact_plan_retirement_goal by lia.
    destruct (Qle_bool (pct / 100 / 12) 0); eexists; reflexivity.
Qed.

(** X1.  In exact arithmetic neither calculator raises, whatever its
    arguments: the divisors [100.0], [12.0] and [0.04] are not zero, the
    branch [r == 0] and the guard [denom == 0] keep the two computed
    divisors away from zero, and the exponents are positive. *)
Theorem calculators_return_in_exact_arithmetic :
  (forall (monthly_investment annual_return_pct : Q) (years : Z),
      exists d : dict Q,
        calculate_sip_projection (F:=Exact) monthly_investment
          annual_return_pct years = inr d)
  /\ (forall (current_age retirement_age : Z)
             (monthly_expense_today inflation_pct expected_return_pct
              current_corpus : Q),
         exists d : dict Q,
           plan_retirement_goal (F:=Exact) current_age retirement_age
             monthly_expense_today inflation_pct expected_return_pct
             current_corpus = inr d).
Proof.
  split.
  - apply exact_calculate_sip_projection_returns.
  - apply exact_plan_retirement_goal_returns.
Qed.

Local Close Scope Q_scope.
(** ** Exceptions in binary64 *)

(** [float(n)] raises nothing but [OverflowError]. *)
Lemma binary64_of_int_raises (n : Z) (e : exception) :
  IEEE.of_int n = inl e -> e = OverflowError.
Proof.
  unfold IEEE.of_int.
  destruct (binary_normalize IEEE.prec IEEE.emax n 0 false);
    unfold raise, ret; congruence.
Qed.

(** The float of a non-negative [int] holds a non-negative integer. *)
Lemma binary64_of_int_nonneg (n : Z) (y : spec_float) :
  0 <= n -> IEEE.of_int n = inr y -> 0 <= IEEE.to_int y.
Proof.
  intros Hn. unfold IEEE.of_int.
  assert (Hs : has_sign false (binary_normalize IEEE.prec IEEE.emax n 0 false)).
  { unfold binary_normalize. destruct n as [| p | p]; [exact I | | lia].
    unfold binary_round.
    destruct (shl_align p 0 _) as [mz ez].
    apply binary_round_aux_sign. lia. }
  destruct (binary_normalize IEEE.prec IEEE.emax n 0 false)
    as [s | s | | s m ex]; unfold ret, raise; try discriminate;
    intros H; injection H as <-; cbn [IEEE.to_int]; try lia.
  simpl in Hs. subst s. destruct ex as [| p | p].
  - lia.
  - pose proof (Z.pow_pos_nonneg 2 (Z.pos p)). nia.
  - apply Z.div_pos; [lia |]. apply Z.pow_pos_nonneg; lia.
Qed.

(** [math.pow] with a non-negative [int] exponent raises nothing but
    [OverflowError]: the base zero has no pole there. *)
Lemma binary64_pow_raises (x : spec_float) (n : Z) (e : exception) :
  0 <= n -> IEEE.pow x n = inl e -> e = OverflowError.
Proof.
  intros Hn. unfold IEEE.pow.
  destruct (IEEE.of_int n) as [e' | y] eqn:Ey; cbn [bind].
  - intros H. injection H as <-. eapply binary64_of_int_raises, Ey.
  - pose proof (binary64_of_int_nonneg n y Hn Ey) as Hk.
    destruct (IEEE.to_int y =? 0) eqn:E0; [discriminate |].
    apply Z.eqb_neq in E0.
    assert (Hpos : (0 <? IEEE.to_int y) = true) by (apply Z.ltb_lt; lia).
    rewrite Hpos.
    destruct x as [s | s | | s m ex]; try discriminate.
    match goal with
    | |- match ?r with _ => _ end = _ -> _ => destruct r
    end; unfold ret, raise; congruence.
Qed.

(** [/] raises only on a zero divisor. *)
Lemma binary64_truediv_returns (x y : spec_float) :
  SFeqb y IEEE.zero = false ->
  IEEE.truediv x y = inr (SFdiv IEEE.prec IEEE.emax x y).
Proof. intros H. unfold IEEE.truediv. now rewrite H. Qed.

Lemma binary64_monthly_rate_returns (pct : spec_float) :
  exists r : spec_float, monthly_rate (F:=Binary64) pct = inr r.
Proof. eexists. reflexivity. Qed.

Lemma binary64_mul_int_raises (x : spec_float) (n : Z) (e : exception) :
  mul_int (F:=Binary64) x n = inl e -> e = OverflowError.
Proof.
  unfold mul_int. change (float_of_int (F:=Binary64) n) with (IEEE.of_int n).
  destruct (IEEE.of_int n) as [e' | y] eqn:Ey; cbn [bind].
  - intros H. injection H as <-. eapply binary64_of_int_raises, Ey.
  - discriminate.
Qed.

(** X2.  In binary64 the only exception either calculator raises is
    [OverflowError] (from [math.pow], or from an [int] too large for a
    float): no [ZeroDivisionError], since every computed divisor is
    guarded, and no [ValueError], since the exponents are positive. *)
Theorem calculators_raise_only_overflow_binary64 :
  (forall (monthly_investment annual_return_pct : spec_float) (years : Z)
          (e : exception),
      calculate_sip_projection (F:=Binary64) monthly_investment
        annual_return_pct years = inl e ->
      e = OverflowError)
  /\ (forall (current_age retirement_age : Z)
             (monthly_expense_today inflation_pct expected_return_pct
              current_corpus : spec_float) (e : exception),
         plan_retirement_goal (F:=Binary64) current_age retirement_age
           monthly_expense_today inflation_pct expected_return_pct
           current_corpus = inl e ->
         e = OverflowError).
Proof.
  split.
  - intros m p y e. unfold calculate_sip_projection.
    destruct (y <=? 0) eqn:Ey; [discriminate |]. apply Z.leb_gt in Ey.
    destruct (binary64_monthly_rate_returns p) as (r & ->). cbn [bind].
    unfold future_value.
    change (feq (F:=Binary64) r f0) with (SFeqb r IEEE.zero).
    destruct (SFeqb r IEEE.zero) eqn:Er.
    + destruct (mul_int (F:=Binary64) m (y * 12)) as [e' | t] eqn:Et;
        cbn [bind]; [| discriminate].
      intros H. injection H as <-. eapply binary64_mul_int_raises, Et.
    + change (math_pow (F:=Binary64)) with IEEE.pow.
      destruct (IEEE.pow (fadd (F:=Binary64) f1 r) (y * 12))
        as [e' | pw] eqn:Ep; cbn [bind].
      { intros H. injection H as <-.
        eapply binary64_pow_raises; [| exact Ep]. lia. }
      change (ftruediv (F:=Binary64)) with IEEE.truediv.
      rewrite (binary64_truediv_returns _ r Er). cbn [bind].
      destruct (mul_int (F:=Binary64) m (y * 12)) as [e' | t] eqn:Et;
        cbn [bind]; [| discriminate].
      intros H. injection H as <-. eapply binary64_mul_int_raises, Et.
  - intros ca ra me infl pct cc e. unfold plan_retirement_goal.
    destruct (ra - ca <=? 0) eqn:Ey; [discriminate |]. apply Z.leb_gt in Ey.
    unfold required_corpus_of.
    change (ftruediv (F:=Binary64)) with IEEE.truediv.
    change (math_pow (F:=Binary64)) with IEEE.pow.
    rewrite (binary64_truediv_returns infl (f100 (F:=Binary64)))
      by reflexivity.
    cbn [bind].
    destruct (IEEE.pow _ (ra - ca)) as [e' | pw] eqn:Ep; cbn [bind].
    { intros H. injection H as <-.
      eapply binary64_pow_raises; [| exact Ep]. lia. }
    rewrite binary64_truediv_returns by reflexivity.
    cbn [bind ret fst snd].
    destruct (binary64_monthly_rate_returns pct) as (r & ->). cbn [bind].
    destruct ((((ra - ca) * 12 <=? 0) || fle (F:=Binary64) r f0)%bool);
      [discriminate |].
    destruct (IEEE.pow _ ((ra - ca) * 12)) as [e' | pw'] eqn:Ep';
      cbn [bind].
    { intros H. injection H as <-.
      eapply binary64_pow_raises; [| exact Ep']. lia. }
    change (feq (F:=Binary64) (fsub (F:=Binary64) pw' f1) f0)
      with (SFeqb (fsub (F:=Binary64) pw' f1) IEEE.zero).
    destruct (SFeqb (fsub (F:=Binary64) pw' f1) IEEE.zero) eqn:Ed;
      [discriminate |].
    rewrite (binary64_truediv_returns _ _ Ed). cbn [bind]. discriminate.
Qed.

(** The exception is met: an inflation percentage of [1e13] overflows
    [math.pow]. *)
Lemma calculators_raise_only_overflow_binary64_witness :
  plan_retirement_goal (F:=Binary64) 30 60 (float_lit 50000 1)
    (float_lit 10000000000000 1) (float_lit 0 1) (float_lit 0 1)
  = inl OverflowError
  /\ OverflowError = OverflowError.
Proof.
  split; [exact inflation_overflow_binary64 |].
  exact (proj2 calculators_raise_only_overflow_binary64 _ _ _ _ _ _ _
           inflation_overflow_binary64).
Defined.
Local Open Scope Q_scope.

(** ** The retirement plan, when it succeeds *)

(** Rounding does not tell equal rationals apart. *)
Lemma exact_round2_eq (x y : Q) :
  x == y -> ExactArith.round2 x = ExactArith.round2 y.
Proof.
  intros E. unfold ExactArith.round2.
  assert (E' : x * 100 == y * 100) by now rewrite E.
  now rewrite (round_half_even_comp _ _ E').
Qed.

(** X3.  In exact arithmetic [plan_retirement_goal] returns a result
    without an [error] field exactly when [retirement_age > current_age]
    and the return percentage is positive.  The result then echoes the
    ages and the two percentages, and with
    [years = retirement_age - current_age],
    [target = monthly_expense_today * (1 + inflation_pct/100)^years],
    [corpus = target * 12 / 0.04], [r = return_pct/100/12] and
    [n = years * 12] it holds the roundings of [monthly_expense_today],
    [current_corpus], [target], [corpus] and
    [max(corpus - current_corpus, 0) * r / ((1+r)^n - 1)].  The corpus is
    300 times the monthly expense at retirement. *)
Theorem plan_retirement_goal_success
    (current_age retirement_age : Z)
    (monthly_expense_today inflation_pct expected_return_pct
     current_corpus : Q) :
  let years := (retirement_age - current_age)%Z in
  let target := monthly_expense_today * (1 + inflation_pct / 100) ^ years in
  let corpus := target * 12 / (4 # 100) in
  let r := expected_return_pct / 100 / 12 in
  let n := (years * 12)%Z in
  let goal_amount := Qmax (corpus - current_corpus) 0 in
  exists d : dict Q,
    plan_retirement_goal (F:=Exact) current_age retirement_age
      monthly_expense_today inflation_pct expected_return_pct current_corpus
    = inr d
    /\ (has_key "error" d = false
        <-> (current_age < retirement_age)%Z /\ 0 < expected_return_pct)
    /\ (has_key "error" d = false ->
        d = [("current_age", VInt current_age);
             ("retirement_age", VInt retirement_age);
             ("years_to_retirement", VInt years);
             ("monthly_expense_today",
              VFloat (ExactArith.round2 monthly_expense_today));
             ("inflation_pct", VFloat inflation_pct);
             ("expected_return_pct_during_accumulation",
              VFloat expected_return_pct);
             ("current_corpus", VFloat (ExactArith.round2 current_corpus));
             ("target_monthly_at_retirement",
              VFloat (ExactArith.round2 target));
             ("required_corpus", VFloat (ExactArith.round2 corpus));
             ("required_monthly_sip",
              VFloat (ExactArith.round2
                        (goal_amount * r / ((1 + r) ^ n - 1))))])
    /\ corpus == 300 * target.
Proof.
  intros years target corpus r n goal.
  assert (Hc : corpus == 300 * target) by (unfold corpus; field).
  destruct (Z.le_gt_cases retirement_age current_age) as [Ha | Ha].
  { eexists. split; [| split; [| split; [| exact Hc]]].
    - unfold plan_retirement_goal.
      assert (E : (retirement_age - current_age <=? 0)%Z = true)
        by (apply Z.leb_le; lia).
      rewrite E. reflexivity.
    - split; [discriminate | lia].
    - discriminate. }
  rewrite exact_plan_retirement_goal by lia.
  fold years r n. change (target_at_retirement years monthly_expense_today
                            inflation_pct) with target.
  change (required_corpus_formula years monthly_expense_today inflation_pct)
    with corpus.
  assert (Hr : r == expected_return_pct * (1 # 1200))
    by apply monthly_rate_scale.
  destruct (Qle_bool r 0) eqn:Er.
  - eexists. split; [reflexivity |]. split; [| split; [| exact Hc]].
    + apply Qle_bool_iff in Er. split; [discriminate | lra].
    + discriminate.
  - assert (Hpos : 0 < r).
    { apply Qnot_le_lt. rewrite <- Qle_bool_iff. congruence. }
    eexists. split; [reflexivity |]. split; [| split; [| exact Hc]].
    + split; [intros _; split; [lia | lra] | reflexivity].
    + intros _.
      rewrite (exact_round2_eq
                 (required_sip_formula
                    (max0 (F:=Exact) (corpus - current_corpus)) r n)
                 (goal * r / ((1 + r) ^ n - 1))); [reflexivity |].
      unfold required_sip_formula. now rewrite exact_max0.
Qed.

Local Close Scope Q_scope.
Local Open Scope Q_scope.

(** ** The two calculators compose *)

(** [round(x, 2)] moves a value by half a cent at most. *)
Lemma exact_round2_near (x : Q) :
  x - (1 # 200) <= ExactArith.round2 x /\ ExactArith.round2 x <= x + (1 # 200).
Proof.
  unfold ExactArith.round2.
  pose proof (round_half_even_near (x * 100)) as [Hlo Hhi].
  set (k := round_half_even (x * 100)) in *.
  assert (E : k # 100 == inject_Z k * (1 # 100)).
  { unfold Qeq, inject_Z. simpl. lia. }
  rewrite E. split; lra.
Qed.

(** The reverse formula of line 98 undoes the formula of line 34. *)
Lemma annuity_of_required_sip (goal r : Q) (n : Z) :
  0 < r -> (0 < n)%Z ->
  annuity_future_value (required_sip_formula goal r n) r n == goal.
Proof.
  intros Hr Hn. unfold annuity_future_value, required_sip_formula.
  pose proof (annuity_denominator_positive r n Hr Hn) as Hd.
  destruct (Qeq_bool r 0) eqn:E.
  - apply Qeq_bool_iff in E. lra.
  - field. split; lra.
Qed.

(** X4.  The contribution that [plan_retirement_goal] asks for, invested
    through [calculate_sip_projection] at the same return for the same
    years, reaches the goal amount [max(corpus - current_corpus, 0)]:
    exactly before the contribution is rounded, and as returned within
    half a cent a month compounded over the [n] months plus half a cent.
    Exact arithmetic, [retirement_age > current_age] and a positive
    return. *)
Theorem required_sip_reaches_goal
    (current_age retirement_age : Z)
    (monthly_expense_today inflation_pct expected_return_pct
     current_corpus : Q) :
  (current_age < retirement_age)%Z ->
  0 < expected_return_pct ->
  let years := (retirement_age - current_age)%Z in
  let target := monthly_expense_today * (1 + inflation_pct / 100) ^ years in
  let corpus := target * 12 / (4 # 100) in
  let r := expected_return_pct / 100 / 12 in
  let n := (years * 12)%Z in
  let goal_amount := Qmax (corpus - current_corpus) 0 in
  annuity_future_value (goal_amount * r / ((1 + r) ^ n - 1)) r n
  == goal_amount
  /\ exists (plan projection : dict Q) (sip value : Q),
       plan_retirement_goal (F:=Exact) current_age retirement_age
         monthly_expense_today inflation_pct expected_return_pct
         current_corpus = inr plan
       /\ get "required_monthly_sip" plan = Some (VFloat sip)
       /\ calculate_sip_projection (F:=Exact) sip expected_return_pct years
          = inr projection
       /\ get "projected_value" projection = Some (VFloat value)
       /\ Qabs (value - goal_amount)
          <= (1 # 200) * (((1 + r) ^ n - 1) / r) + (1 # 200).
Proof.
  intros Ha Hp years target corpus r n goal.
  assert (Hr : 0 < r).
  { unfold r. rewrite monthly_rate_scale. lra. }
  assert (Hn : (0 < n)%Z) by (unfold n, years; lia).
  pose proof (annuity_denominator_positive r n Hr Hn) as Hd.
  pose proof (annuity_of_required_sip goal r n Hr Hn) as Hinv.
  split; [exact Hinv |].
  rewrite exact_plan_retirement_goal by lia.
  fold years r n. change (required_corpus_formula years monthly_expense_today
                            inflation_pct) with corpus.
  assert (Er : Qle_bool r 0 = false).
  { destruct (Qle_bool r 0) eqn:E; [| reflexivity].
    apply Qle_bool_iff in E. lra. }
  rewrite Er.
  set (sip := ExactArith.round2
                (required_sip_formula
                   (max0 (F:=Exact) (corpus - current_corpus)) r n)).
  eexists. eexists. exists sip. eexists.
  split; [reflexivity |]. split; [reflexivity |].
  split; [apply exact_calculate_sip_projection; unfold years; lia |].
  fold r n. split; [reflexivity |].
  set (A := ((1 + r) ^ n - 1) / r).
  assert (HA : 0 < A).
  { unfold A. apply Qlt_shift_div_l; lra. }
  assert (Hfv : annuity_future_value sip r n == sip * A).
  { unfold annuity_future_value.
    destruct (Qeq_bool r 0) eqn:E; [| reflexivity].
    apply Qeq_bool_iff in E. lra. }
  assert (Hgoal : required_sip_formula goal r n * A == goal).
  { unfold annuity_future_value in Hinv.
    destruct (Qeq_bool r 0) eqn:E; [| exact Hinv].
    apply Qeq_bool_iff in E. lra. }
  assert (Hsip : sip == ExactArith.round2 (required_sip_formula goal r n)).
  { unfold sip. apply exact_round2_comp.
    unfold required_sip_formula. now rewrite exact_max0. }
  pose proof (exact_round2_near (required_sip_formula goal r n)) as [H1 H2].
  pose proof (exact_round2_near (annuity_future_value sip r n)) as [H3 H4].
  rewrite <- Hsip in H1, H2.
  apply Qabs_Qle_condition.
  set (v := ExactArith.round2 (annuity_future_value sip r n)) in *.
  rewrite Hfv in H3, H4.
  set (s0 := required_sip_formula goal r n) in *.
  assert (P1 : 0 <= (sip - (s0 - (1 # 200))) * A)
    by (apply Qmult_le_0_compat; lra).
  assert (P2 : 0 <= (s0 + (1 # 200) - sip) * A)
    by (apply Qmult_le_0_compat; lra).
  split; lra.
Qed.

Lemma required_sip_reaches_goal_witness :
  (30 < 60)%Z /\ 0 < 12
  /\ exists (plan projection : dict Q) (sip value : Q),
       plan_retirement_goal (F:=Exact) 30 60 50000 6 12 0 = inr plan
       /\ get "required_monthly_sip" plan = Some (VFloat sip)
       /\ calculate_sip_projection (F:=Exact) sip 12 (60 - 30)
          = inr projection
       /\ get "projected_value" projection = Some (VFloat value)
       /\ Qabs (value
                - Qmax (50000 * (1 + 6 / 100) ^ (60 - 30) * 12 / (4 # 100)
                        - 0) 0)
          <= (1 # 200) * (((1 + 12 / 100 / 12) ^ ((60 - 30) * 12) - 1)
                          / (12 / 100 / 12)) + (1 # 200).
Proof.
  assert (H1 : (30 < 60)%Z) by lia.
  assert (H2 : 0 < 12) by lra.
  split; [exact H1 |]. split; [exact H2 |].
  exact (proj2 (required_sip_reaches_goal 30 60 50000 6 12 0 H1 H2)).
Defined.

Local Close Scope Q_scope.
Local Open Scope Q_scope.

(** ** The fields of a projection, one against another *)

(** Three roundings of [a], [b] and [a - b] are at most one unit apart. *)
Lemma round_half_even_difference (a b : Q) :
  (Z.abs (round_half_even (a - b) - (round_half_even a - round_half_even b))
   <= 1)%Z.
Proof.
  pose proof (round_half_even_near a) as [A1 A2].
  pose proof (round_half_even_near b) as [B1 B2].
  pose proof (round_half_even_near (a - b)) as [C1 C2].
  set (ka := round_half_even a) in *. set (kb := round_half_even b) in *.
  set (kc := round_half_even (a - b)) in *.
  assert (Hlo : - (2) < inject_Z (kc - (ka - kb))).
  { unfold Zminus.
    repeat (rewrite inject_Z_plus || rewrite inject_Z_opp). lra. }
  assert (Hhi : inject_Z (kc - (ka - kb)) < 2).
  { unfold Zminus.
    repeat (rewrite inject_Z_plus || rewrite inject_Z_opp). lra. }
  change (- (2)) with (inject_Z (-2)) in Hlo.
  change 2 with (inject_Z 2) in Hhi.
  rewrite <- Zlt_Qlt in Hlo, Hhi. lia.
Qed.

(** X5.  [projected_gain] is the rounding of the unrounded difference, so
    it is within one cent of [projected_value - total_invested], the
    difference of the two fields as returned, and need not be equal to it:
    [calculate_sip_projection(1.001, 12, 1)] returns [total_invested =
    12.01], [projected_value = 12.70] and [projected_gain = 0.68].  Exact
    arithmetic. *)
Theorem projected_gain_within_one_cent :
  (forall (monthly_investment annual_return_pct : Q) (years : Z),
      exists (d : dict Q) (total value gain : Q),
        calculate_sip_projection (F:=Exact) monthly_investment
          annual_return_pct years
        = inr d
        /\ ((1 <= years)%Z ->
            get "total_invested" d = Some (VFloat total)
            /\ get "projected_value" d = Some (VFloat value)
            /\ get "projected_gain" d = Some (VFloat gain)
            /\ Qabs (gain - (value - total)) <= 1 # 100))
  /\ calculate_sip_projection (F:=Exact) 1.001 12 1
     = inr [("monthly_investment", VFloat 1.001);
            ("expected_annual_return_pct", VFloat 12);
            ("years", VInt 1);
            ("total_invested", VFloat 12.01);
            ("projected_value", VFloat 12.70);
            ("projected_gain", VFloat 0.68)].
Proof.
  split; [| vm_compute; reflexivity].
  intros m p y. destruct (Z.le_gt_cases 1 y) as [Hy | Hy].
  - rewrite (exact_calculate_sip_projection m p y Hy).
    set (fv := annuity_future_value m (p / 100 / 12) (y * 12)).
    set (t := m * inject_Z (y * 12)).
    do 4 eexists. split; [reflexivity |]. intros _.
    split; [reflexivity |]. split; [reflexivity |].
    split; [reflexivity |].
    unfold ExactArith.round2.
    assert (E : (fv - t) * 100 == fv * 100 - t * 100) by ring.
    rewrite (round_half_even_comp _ _ E).
    pose proof (round_half_even_difference (fv * 100) (t * 100)) as H.
    set (ka := round_half_even (fv * 100)) in *.
    set (kb := round_half_even (t * 100)) in *.
    set (kc := round_half_even (fv * 100 - t * 100)) in *.
    assert (E' : (kc # 100) - ((ka # 100) - (kb # 100))
                 == inject_Z (kc - (ka - kb)) * (1 # 100)).
    { unfold Zminus.
      repeat (rewrite inject_Z_plus || rewrite inject_Z_opp).
      unfold Qeq, inject_Z, Qminus, Qplus, Qopp, Qmult. simpl. lia. }
    rewrite E'. apply Qabs_Qle_condition.
    assert (L : inject_Z (-1) <= inject_Z (kc - (ka - kb)))
      by (rewrite <- Zle_Qle; lia).
    assert (U : inject_Z (kc - (ka - kb)) <= inject_Z 1)
      by (rewrite <- Zle_Qle; lia).
    change (inject_Z (-1)) with (- (1)) in L. change (inject_Z 1) with 1 in U.
    split; lra.
  - exists [("error", VStr "Years must be > 0")], 0, 0, 0.
    split; [| lia].
    unfold calculate_sip_projection.
    assert (E : (y <=? 0)%Z = true) by (apply Z.leb_le; lia).
    now rewrite E.
Qed.

Local Close Scope Q_scope.
Local Open Scope Q_scope.

(** ** What the inputs move *)

(** X6.  The corpus already saved enters [plan_retirement_goal] through
    the goal amount only: two calls that differ in [current_corpus] alone
    return results that agree on every field but [current_corpus] and
    [required_monthly_sip], and the larger corpus never asks for the
    larger contribution.  Exact arithmetic. *)
Theorem current_corpus_lowers_required_sip
    (current_age retirement_age : Z)
    (monthly_expense_today inflation_pct expected_return_pct
     corpus1 corpus2 : Q) :
  corpus1 <= corpus2 ->
  exists d1 d2 : dict Q,
    plan_retirement_goal (F:=Exact) current_age retirement_age
      monthly_expense_today inflation_pct expected_return_pct corpus1
    = inr d1
    /\ plan_retirement_goal (F:=Exact) current_age retirement_age
         monthly_expense_today inflation_pct expected_return_pct corpus2
       = inr d2
    /\ keys d1 = keys d2
    /\ (forall k : string,
           k <> "current_corpus" -> k <> "required_monthly_sip" ->
           get k d1 = get k d2)
    /\ (forall sip1 sip2 : Q,
           get "required_monthly_sip" d1 = Some (VFloat sip1) ->
           get "required_monthly_sip" d2 = Some (VFloat sip2) ->
           sip2 <= sip1).
Proof.
  intros Hc.
  destruct (Z.le_gt_cases retirement_age current_age) as [Ha | Ha].
  { unfold plan_retirement_goal.
    assert (E : (retirement_age - current_age <=? 0)%Z = true)
      by (apply Z.leb_le; lia).
    rewrite E. do 2 eexists. repeat split; discriminate. }
  rewrite !exact_plan_retirement_goal by lia.
  set (years := (retirement_age - current_age)%Z).
  set (corpus := required_corpus_formula years monthly_expense_today
                   inflation_pct).
  set (r := expected_return_pct / 100 / 12).
  set (n := (years * 12)%Z).
  destruct (Qle_bool r 0) eqn:Er.
  { do 2 eexists. repeat split; discriminate. }
  assert (Hr : 0 < r).
  { apply Qnot_le_lt. rewrite <- Qle_bool_iff. congruence. }
  assert (Hn : (0 < n)%Z) by (unfold n, years; lia).
  do 2 eexists. split; [reflexivity |]. split; [reflexivity |].
  split; [reflexivity |]. split.
  - intros k H1 H2. cbn [get].
    repeat match goal with
           | |- (if String.eqb k ?s then _ else _) = _ =>
               destruct (String.eqb_spec k s); [try reflexivity; congruence |]
           end.
    reflexivity.
  - intros sip1 sip2 E1 E2. cbn in E1, E2.
    injection E1 as <-. injection E2 as <-.
    apply exact_round2_le. unfold required_sip_formula.
    pose proof (annuity_denominator_positive r n Hr Hn) as Hd.
    rewrite !exact_max0.
    assert (Hg : Qmax (corpus - corpus2) 0 <= Qmax (corpus - corpus1) 0)
      by (apply Q.max_le_compat_r; lra).
    apply Qle_shift_div_l; [exact Hd |].
    set (g1 := Qmax (corpus - corpus1) 0) in *.
    set (g2 := Qmax (corpus - corpus2) 0) in *.
    assert (E : g2 * r / ((1 + r) ^ n - 1) * ((1 + r) ^ n - 1) == g2 * r)
      by (field; lra).
    rewrite E. nra.
Qed.

Lemma current_corpus_lowers_required_sip_witness :
  0 <= 1000000
  /\ exists d1 d2 : dict Q,
       plan_retirement_goal (F:=Exact) 30 60 50000 6 12 0 = inr d1
       /\ plan_retirement_goal (F:=Exact) 30 60 50000 6 12 1000000 = inr d2
       /\ forall sip1 sip2 : Q,
            get "required_monthly_sip" d1 = Some (VFloat sip1) ->
            get "required_monthly_sip" d2 = Some (VFloat sip2) ->
            sip2 <= sip1.
Proof.
  assert (H : 0 <= 1000000) by lra.
  split; [exact H |].
  destruct (current_corpus_lowers_required_sip 30 60 50000 6 12 0 1000000 H)
    as (d1 & d2 & H1 & H2 & _ & _ & H3).
  exists d1, d2. split; [exact H1 |]. split; [exact H2 | exact H3].
Defined.

(** The annuity factor [((1+r)^n - 1)/r] is positive and grows with the
    number of months. *)
Lemma annuity_factor_mono (r : Q) (n1 n2 : Z) :
  0 < r -> (0 < n1 <= n2)%Z ->
  0 < ((1 + r) ^ n1 - 1) / r <= ((1 + r) ^ n2 - 1) / r.
Proof.
  intros Hr [H1 H2].
  pose proof (annuity_denominator_positive r n1 Hr H1) as Hd.
  pose proof (Qpower_le_compat_l (1 + r) n1 n2 H2 ltac:(lra)) as Hp.
  split.
  - apply Qlt_shift_div_l; lra.
  - apply Qle_shift_div_l; [exact Hr |].
    assert (E : ((1 + r) ^ n1 - 1) / r * r == (1 + r) ^ n1 - 1)
      by (field; lra).
    rewrite E. lra.
Qed.

Lemma annuity_future_value_mono (m1 m2 r : Q) (n1 n2 : Z) :
  0 <= m1 <= m2 -> 0 <= r -> (0 < n1 <= n2)%Z ->
  annuity_future_value m1 r n1 <= annuity_future_value m2 r n2.
Proof.
  intros Hm Hr Hn. unfold annuity_future_value.
  destruct (Qeq_bool r 0) eqn:E.
  - assert (H : inject_Z n1 <= inject_Z n2) by (rewrite <- Zle_Qle; lia).
    assert (H0 : 0 <= inject_Z n1).
    { change 0 with (inject_Z 0). rewrite <- Zle_Qle. lia. }
    nra.
  - apply Qeq_bool_neq in E.
    pose proof (annuity_factor_mono r n1 n2 ltac:(lra) Hn) as [H1 H2].
    nra.
Qed.

(** X7.  With a non-negative monthly investment and a non-negative
    return, investing more each month or for more years never lowers
    [total_invested] nor [projected_value].  Exact arithmetic. *)
Theorem projection_grows_with_investment_and_years
    (investment1 investment2 annual_return_pct : Q) (years1 years2 : Z) :
  0 <= investment1 <= investment2 ->
  0 <= annual_return_pct ->
  (1 <= years1 <= years2)%Z ->
  exists (d1 d2 : dict Q) (total1 total2 value1 value2 : Q),
    calculate_sip_projection (F:=Exact) investment1 annual_return_pct years1
    = inr d1
    /\ calculate_sip_projection (F:=Exact) investment2 annual_return_pct
         years2 = inr d2
    /\ get "total_invested" d1 = Some (VFloat total1)
    /\ get "total_invested" d2 = Some (VFloat total2)
    /\ get "projected_value" d1 = Some (VFloat value1)
    /\ get "projected_value" d2 = Some (VFloat value2)
    /\ total1 <= total2
    /\ value1 <= value2.
Proof.
  intros Hm Hp Hy.
  rewrite !exact_calculate_sip_projection by lia.
  do 6 eexists. repeat (split; [reflexivity |]).
  assert (Hr : 0 <= annual_return_pct / 100 / 12)
    by (rewrite monthly_rate_scale; lra).
  split; apply exact_round2_le.
  - assert (H : inject_Z (years1 * 12) <= inject_Z (years2 * 12))
      by (rewrite <- Zle_Qle; lia).
    assert (H0 : 0 <= inject_Z (years1 * 12)).
    { change 0 with (inject_Z 0). rewrite <- Zle_Qle. lia. }
    nra.
  - apply annuity_future_value_mono; [exact Hm | exact Hr | lia].
Qed.

Lemma projection_grows_with_investment_and_years_witness :
  0 <= 1000 <= 1500 /\ 0 <= 12 /\ (1 <= 10 <= 20)%Z
  /\ exists (d1 d2 : dict Q) (total1 total2 value1 value2 : Q),
       calculate_sip_projection (F:=Exact) 1000 12 10 = inr d1
       /\ calculate_sip_projection (F:=Exact) 1500 12 20 = inr d2
       /\ get "total_invested" d1 = Some (VFloat total1)
       /\ get "total_invested" d2 = Some (VFloat total2)
       /\ get "projected_value" d1 = Some (VFloat value1)
       /\ get "projected_value" d2 = Some (VFloat value2)
       /\ total1 <= total2
       /\ value1 <= value2.
Proof.
  assert (H1 : 0 <= 1000 <= 1500) by (split; lra).
  assert (H2 : 0 <= 12) by lra.
  assert (H3 : (1 <= 10 <= 20)%Z) by lia.
  split; [exact H1 |]. split; [exact H2 |]. split; [exact H3 |].
  exact (projection_grows_with_investment_and_years 1000 1500 12 10 20
           H1 H2 H3).
Defined.

Local Close Scope Q_scope.
(** ** Which inputs the calculators reject *)

(** X8.  In either arithmetic each calculator checks its [int] arguments
    and nothing else: [calculate_sip_projection] returns an [error] field
    exactly when [years <= 0], and [plan_retirement_goal] returns the
    error ["Retirement age must be greater than current age."] exactly
    when [retirement_age <= current_age]; both do so before any float
    operation, so that no exception can come in their way. *)
Theorem calculators_input_checks {F : PyFloat} :
  (forall (monthly_investment annual_return_pct : float) (years : Z),
      (years <= 0 ->
       calculate_sip_projection monthly_investment annual_return_pct years
       = inr [("error", VStr "Years must be > 0")])
      /\ (forall d : dict float,
             calculate_sip_projection monthly_investment annual_return_pct
               years = inr d ->
             has_key "error" d = true -> years <= 0))
  /\ (forall (current_age retirement_age : Z)
             (monthly_expense_today inflation_pct expected_return_pct
              current_corpus : float),
         (retirement_age <= current_age ->
          plan_retirement_goal current_age retirement_age
            monthly_expense_today inflation_pct expected_return_pct
            current_corpus
          = inr [("error",
                  VStr "Retirement age must be greater than current age.")])
         /\ (forall d : dict float,
                plan_retirement_goal current_age retirement_age
                  monthly_expense_today inflation_pct expected_return_pct
                  current_corpus = inr d ->
                get "error" d
                = Some (VStr "Retirement age must be greater than current age.")
                -> retirement_age <= current_age)).
Proof.
  split.
  - intros m p y. split.
    + intros Hy. unfold calculate_sip_projection.
      apply Z.leb_le in Hy. now rewrite Hy.
    + intros d H He. unfold calculate_sip_projection in H.
      returned H; injection H as <-.
      * now apply Z.leb_le.
      * discriminate He.
  - intros ca ra me infl pct cc. split.
    + intros Ha. unfold plan_retirement_goal.
      assert (E : (ra - ca <=? 0) = true) by (apply Z.leb_le; lia).
      now rewrite E.
    + intros d H He. unfold plan_retirement_goal in H.
      returned H; injection H as <-; try discriminate He.
      apply Z.leb_le in Hb. lia.
Qed.
(** ** Keyword binding against the catalog *)

Section Binding.

Context {F : PyFloat}.

Lemma lookup_In {A : Type} (k : string) (l : list (string * A)) (v : A) :
  lookup k l = Some v -> In (k, v) l.
Proof.
  induction l as [| [k' v'] l IH]; simpl; [discriminate |].
  destruct (String.eqb_spec k k') as [-> | _].
  - intros H. injection H as ->. now left.
  - intros H. right. now apply IH.
Qed.

Lemma lookup_app {A : Type} (k : string) (l l' : list (string * A)) :
  lookup k (l ++ l')
  = match lookup k l with
    | Some v => Some v
    | None => lookup k l'
    end.
Proof.
  induction l as [| [k' v'] l IH]; simpl; [reflexivity |].
  now destruct (String.eqb k k').
Qed.

(** A keyword names a property of the schema exactly when it is one of
    the schema's property names. *)
Lemma property_of_names (spec : tool_spec float) (k : string) :
  existsb (String.eqb k) (map prop_name (spec_properties spec))
  = match property_of spec k with
    | Some _ => true
    | None => false
    end.
Proof.
  unfold property_of.
  induction (spec_properties spec) as [| p ps IH]; simpl; [reflexivity |].
  rewrite (String.eqb_sym k (prop_name p)).
  now destruct (String.eqb (prop_name p) k).
Qed.

Lemma property_of_In (spec : tool_spec float) (k : string)
    (p : property float) :
  property_of spec k = Some p ->
  In p (spec_properties spec) /\ prop_name p = k.
Proof.
  unfold property_of. intros H. apply find_some in H.
  destruct H as [H1 H2]. split; [exact H1 |]. now apply String.eqb_eq.
Qed.

(** The check for an unexpected keyword, against the schema's names. *)
Lemma unexpected_keyword_names (spec : tool_spec float) (kw : kwargs) :
  unexpected_keyword (map prop_name (spec_properties spec)) kw
  = negb (forallb (fun kv => match property_of spec (fst kv) with
                             | Some _ => true
                             | None => false
                             end) kw).
Proof.
  unfold unexpected_keyword.
  induction kw as [| kv kw IH]; simpl; [reflexivity |].
  rewrite IH, property_of_names.
  now destruct (property_of spec (fst kv)).
Qed.

End Binding.

Section CatalogCalls.

Context {F : PyFloat}.

(** Every schema of the catalog names a registered tool. *)
Lemma catalog_registered (spec : tool_spec float) :
  In spec TOOLS -> exists t : tool, lookup (spec_name spec) TOOL_MAPPING = Some t.
Proof.
  intros [<- | [<- | []]]; eexists; reflexivity.
Qed.

(** A call whose keywords do not bind raises [TypeError]. *)
Lemma tool_binding_fails (spec : tool_spec float) (t : tool) (kw : kwargs) :
  In spec TOOLS ->
  lookup (spec_name spec) TOOL_MAPPING = Some t ->
  binds spec kw = false ->
  t kw = inl TypeError.
Proof.
  intros [<- | [<- | []]] Ht Hb; injection Ht as <-;
    match type of Hb with
    | binds ?s _ = _ => pose proof (unexpected_keyword_names s kw) as U
    end;
    unfold binds in Hb;
    cbn [map spec_properties spec_required prop_name number integer] in U, Hb.
  - unfold calculate_sip_projection_tool. rewrite U.
    destruct (forallb _ kw); cbn [negb andb] in *; [| reflexivity].
    unfold required_arg. cbn [forallb] in Hb.
    destruct (lookup "monthly_investment" kw); [| reflexivity].
    destruct (lookup "expected_annual_return_pct" kw); [| reflexivity].
    destruct (lookup "years" kw); [discriminate Hb | reflexivity].
  - unfold plan_retirement_goal_tool. rewrite U.
    destruct (forallb _ kw); cbn [negb andb] in *; [| reflexivity].
    unfold required_arg. cbn [forallb] in Hb.
    destruct (lookup "current_age" kw); [| reflexivity].
    destruct (lookup "retirement_age" kw); [| reflexivity].
    destruct (lookup "monthly_expense_today" kw); [| reflexivity].
    destruct (lookup "inflation_pct" kw); [| reflexivity].
    destruct (lookup "expected_return_pct_during_accumulation" kw);
      [discriminate Hb | reflexivity].
Qed.

End CatalogCalls.

Section Dispatch.

Context {F : PyFloat}.
Variable json_loads : string -> raises (json float).
Variable str : exception -> string.

(** X9.  A request for a tool of the catalog whose arguments cannot be
    bound to the function's parameters gets the [TypeError] payload of
    the [except] branch: when the payload is empty (it is then not parsed,
    and [{}] lacks the required parameters), when it parses to something
    that is not an object, and when it parses to an object with a keyword
    that is no property of the schema or without a required one. *)
Theorem unbound_call_is_type_error (spec : tool_spec float) (it : item) :
  In spec TOOLS ->
  name it = spec_name spec ->
  arguments it = ""
  \/ (exists args : json float,
         json_loads (arguments it) = inr args
         /\ match args with
            | JObject kw => binds spec kw = false
            | _ => True
            end) ->
  tool_output_of json_loads str it
  = [("error",
      VStr ("Exception while running tool '" ++ name it ++ "': "
            ++ str TypeError))].
Proof.
  intros Hs Hn Hargs.
  destruct (catalog_registered spec Hs) as (t & Ht).
  assert (Hempty : binds spec [] = false)
    by (destruct Hs as [<- | [<- | []]]; reflexivity).
  unfold tool_output_of. cbv zeta. rewrite Hn, Ht.
  destruct (String.eqb_spec (arguments it) "") as [E | N].
  - cbn [bind ret call].
    now rewrite (tool_binding_fails spec t [] Hs Ht Hempty).
  - destruct Hargs as [E | (args & -> & Hb)]; [contradiction |].
    cbn [bind].
    destruct args as [| | | | | | kw]; try reflexivity.
    cbn [call]. now rewrite (tool_binding_fails spec t kw Hs Ht Hb).
Qed.

End Dispatch.

Lemma unbound_call_is_type_error_witness :
  let spec : tool_spec Q :=
    {| spec_type := "function";
       spec_name := "calculate_sip_projection";
       spec_properties :=
         [number (F:=Exact) "monthly_investment";
          number (F:=Exact) "expected_annual_return_pct";
          {| prop_name := "years"; prop_type := "integer";
             prop_minimum := Some 1; prop_default := None |}];
       spec_required :=
         ["monthly_investment"; "expected_annual_return_pct"; "years"] |} in
  let it : item :=
    Script.function_call "calculate_sip_projection" "" "call_0" in
  In spec (TOOLS (F:=Exact))
  /\ name it = spec_name spec
  /\ arguments it = ""
  /\ tool_output_of (F:=Exact) Script.json_loads Script.str it
     = [("error",
         VStr "Exception while running tool 'calculate_sip_projection': TypeError")].
Proof.
  intros spec it.
  assert (H1 : In spec (TOOLS (F:=Exact))) by (left; reflexivity).
  assert (H2 : name it = spec_name spec) by reflexivity.
  assert (H3 : arguments it = "") by reflexivity.
  split; [exact H1 |]. split; [exact H2 |]. split; [exact H3 |].
  exact (unbound_call_is_type_error (F:=Exact) Script.json_loads Script.str
           spec it H1 H2 (or_introl H3)).
Defined.
(** ** Calls that conform to the catalog *)

(** A value given for a property has the type of the property. *)
Lemma well_typed_lookup {F : PyFloat} (spec : tool_spec float) (kw : kwargs)
    (k : string) (v : json float) (p : property float) :
  well_typed spec kw = true ->
  lookup k kw = Some v ->
  property_of spec k = Some p ->
  of_type (prop_type p) (prop_minimum p) v = true.
Proof.
  intros Hw Hl Hp. apply lookup_In in Hl.
  unfold well_typed in Hw. rewrite forallb_forall in Hw.
  specialize (Hw _ Hl). cbn [fst snd] in Hw. now rewrite Hp in Hw.
Qed.

(** In exact arithmetic a JSON number binds to a [float] parameter, and a
    JSON integer to an [int] parameter. *)
Lemma exact_number_binds (lo : option Z) (v : json Q) :
  of_type (F:=Exact) "number" lo v = true ->
  exists x : Q, arg_float (F:=Exact) v = inr x.
Proof.
  destruct v; simpl; try discriminate; intros _; eexists; reflexivity.
Qed.

Lemma integer_binds {F : PyFloat} (lo : option Z) (v : json float) :
  of_type "integer" lo v = true ->
  exists z : Z, v = JInt z
                /\ match lo with
                   | Some l => (l <= z)%Z
                   | None => True
                   end.
Proof.
  destruct v as [| | z | | | |]; simpl; try discriminate.
  intros H. exists z. split; [reflexivity |].
  destruct lo as [l |]; [now apply Z.leb_le | exact I].
Qed.

Section ConformingCalls.

Variable json_loads : string -> raises (json Q).
Variable str : exception -> string.

(** X10.  A request for a tool of the catalog whose arguments parse to an
    object that conforms to the tool's schema is bound without a
    [TypeError], and in exact arithmetic the calculator returns: the
    output of the request is the calculator's result, never the
    exception payload.  For [calculate_sip_projection] the schema's
    minimum of [1] for [years] is the function's own check, and the
    result is a success. *)
Theorem conforming_call_returns (spec : tool_spec Q) (it : item)
    (kw : kwargs (F:=Exact)) :
  In spec (TOOLS (F:=Exact)) ->
  name it = spec_name spec ->
  parsed_arguments (F:=Exact) json_loads it = inr (JObject kw) ->
  conforms (F:=Exact) spec kw = true ->
  exists (t : tool (F:=Exact)) (d : dict Q),
    lookup (name it) (TOOL_MAPPING (F:=Exact)) = Some t
    /\ t kw = inr d
    /\ tool_output_of (F:=Exact) json_loads str it = d
    /\ (name it = "calculate_sip_projection" ->
        fully_successful sip_derived d = true).
Proof.
  intros Hs Hn Hp Hc.
  assert (Hout : forall (t : tool (F:=Exact)) (d : dict Q),
             lookup (name it) (TOOL_MAPPING (F:=Exact)) = Some t ->
             t kw = inr d ->
             tool_output_of (F:=Exact) json_loads str it = d).
  { intros t d Ht Hd. unfold tool_output_of. cbv zeta. rewrite Ht.
    unfold parsed_arguments in Hp. rewrite Hp. cbn [bind call].
    now rewrite Hd. }
  unfold conforms in Hc. apply andb_prop in Hc. destruct Hc as [Hb Hw].
  pose proof (unexpected_keyword_names (F:=Exact) spec kw) as U.
  unfold binds in Hb. apply andb_prop in Hb. destruct Hb as [Hk Hr].
  rewrite Hk in U. cbn [negb] in U.
  pose proof (well_typed_lookup (F:=Exact) spec kw) as T.
  destruct Hs as [<- | [<- | []]];
    cbn [map spec_properties spec_required prop_name number integer
         forallb] in U, Hr;
    cbn [spec_name] in Hn.
  - destruct (lookup "monthly_investment" kw) as [a |] eqn:Ea;
      [| discriminate Hr].
    destruct (lookup "expected_annual_return_pct" kw) as [b |] eqn:Eb;
      [| discriminate Hr].
    destruct (lookup "years" kw) as [c |] eqn:Ec; [| discriminate Hr].
    destruct (exact_number_binds _ a (T _ _ _ Hw Ea eq_refl)) as (x & Hx).
    destruct (exact_number_binds _ b (T _ _ _ Hw Eb eq_refl)) as (y & Hy).
    destruct (integer_binds (F:=Exact) _ c (T _ _ _ Hw Ec eq_refl)) as (z & -> & Hz).
    cbn in Hz.
    assert (Hd : calculate_sip_projection_tool (F:=Exact) kw
                 = calculate_sip_projection (F:=Exact) x y z).
    { unfold calculate_sip_projection_tool, required_arg.
      rewrite U, Ea, Eb, Ec. cbn [bind ret]. rewrite Hx, Hy. reflexivity. }
    rewrite (exact_calculate_sip_projection x y z Hz) in Hd.
    do 2 eexists. split; [rewrite Hn; reflexivity |].
    split; [exact Hd |].
    split; [apply (Hout calculate_sip_projection_tool);
            [rewrite Hn; reflexivity | exact Hd] |].
    intros _. reflexivity.
  - destruct (lookup "current_age" kw) as [a |] eqn:Ea; [| discriminate Hr].
    destruct (lookup "retirement_age" kw) as [b |] eqn:Eb;
      [| discriminate Hr].
    destruct (lookup "monthly_expense_today" kw) as [c |] eqn:Ec;
      [| discriminate Hr].
    destruct (lookup "inflation_pct" kw) as [d |] eqn:Ed;
      [| discriminate Hr].
    destruct (lookup "expected_return_pct_during_accumulation" kw)
      as [e |] eqn:Ee; [| discriminate Hr].
    destruct (integer_binds (F:=Exact) _ a (T _ _ _ Hw Ea eq_refl)) as (ca & -> & _).
    destruct (integer_binds (F:=Exact) _ b (T _ _ _ Hw Eb eq_refl)) as (ra & -> & _).
    destruct (exact_number_binds _ c (T _ _ _ Hw Ec eq_refl)) as (me & Hme).
    destruct (exact_number_binds _ d (T _ _ _ Hw Ed eq_refl))
      as (infl & Hinfl).
    destruct (exact_number_binds _ e (T _ _ _ Hw Ee eq_refl)) as (pct & Hpct).
    assert (Hcc : exists cc : Q,
               match lookup "current_corpus" kw with
               | Some v => arg_float (F:=Exact) v
               | None => ret (float_lit (F:=Exact) 0 1)
               end = inr cc).
    { destruct (lookup "current_corpus" kw) as [v |] eqn:Ev.
      - exact (exact_number_binds _ v (T _ _ _ Hw Ev eq_refl)).
      - eexists. reflexivity. }
    destruct Hcc as (cc & Hcc).
    destruct (exact_plan_retirement_goal_returns ca ra me infl pct cc)
      as (res & Hres).
    assert (Hd : plan_retirement_goal_tool (F:=Exact) kw = inr res).
    { unfold plan_retirement_goal_tool, required_arg.
      rewrite U, Ea, Eb, Ec, Ed, Ee. cbn [bind ret arg_int].
      rewrite Hme, Hinfl, Hpct. cbn [bind]. rewrite Hcc. cbn [bind].
      exact Hres. }
    exists plan_retirement_goal_tool, res.
    split; [rewrite Hn; reflexivity |]. split; [exact Hd |].
    split; [apply (Hout plan_retirement_goal_tool);
            [rewrite Hn; reflexivity | exact Hd] |].
    rewrite Hn. discriminate.
Qed.

End ConformingCalls.

(** X10 on the scripted payload ["sip"]. *)
Lemma conforming_call_returns_witness :
  let spec : tool_spec Q :=
    nth 0 (TOOLS (F:=Exact))
      {| spec_type := ""; spec_name := ""; spec_properties := [];
         spec_required := [] |} in
  let it : item :=
    Script.function_call "calculate_sip_projection" "sip" "call_4" in
  let kw : kwargs (F:=Exact) :=
    [("monthly_investment", JInt 1000);
     ("expected_annual_return_pct", JInt 12);
     ("years", JInt 10)] in
  In spec (TOOLS (F:=Exact))
  /\ name it = spec_name spec
  /\ parsed_arguments (F:=Exact) Script.json_loads it = inr (JObject kw)
  /\ conforms (F:=Exact) spec kw = true
  /\ exists d : dict Q,
       tool_output_of (F:=Exact) Script.json_loads Script.str it = d
       /\ fully_successful sip_derived d = true.
Proof.
  intros spec it kw.
  assert (H1 : In spec (TOOLS (F:=Exact))) by (left; reflexivity).
  assert (H2 : name it = spec_name spec) by reflexivity.
  assert (H3 : parsed_arguments (F:=Exact) Script.json_loads it
               = inr (JObject kw)) by reflexivity.
  assert (H4 : conforms (F:=Exact) spec kw = true) by reflexivity.
  split; [exact H1 |]. split; [exact H2 |]. split; [exact H3 |].
  split; [exact H4 |].
  destruct (conforming_call_returns (Script.json_loads (F:=Exact)) Script.str
              spec it kw
              H1 H2 H3 H4) as (t & d & _ & _ & Hout & Hok).
  exists d. split; [exact Hout | apply Hok; reflexivity].
Defined.

(** ** The catalog and the registry *)

Section Catalog.

Context {F : PyFloat}.
Variable json_loads : string -> raises (json float).
Variable str : exception -> string.

(** No result of a calculator is the payload for an unknown tool. *)
Lemma tool_result_not_unknown (t : tool) (tool_name : string)
    (kw : kwargs) :
  In (tool_name, t) TOOL_MAPPING ->
  t kw <> inr [("error",
                VStr ("No local implementation for tool '" ++ tool_name
                      ++ "'"))].
Proof.
  intros [E | [E | []]]; injection E as <- <-; intros H.
  - unfold calculate_sip_projection_tool in H.
    destruct (unexpected_keyword _ kw); [discriminate |].
    returned H. unfold calculate_sip_projection in H.
    returned H; discriminate.
  - unfold plan_retirement_goal_tool in H.
    destruct (unexpected_keyword _ kw); [discriminate |].
    returned H. unfold plan_retirement_goal in H.
    returned H; discriminate.
Qed.

(** X11.  The catalog sent to the model and the registry of local
    functions name the same tools: a request gets the payload ["No local
    implementation for tool ..."] exactly when its tool name is not in
    the catalog [TOOLS]; its arguments are then not even parsed. *)
Theorem no_local_implementation_iff_not_in_catalog (it : item) :
  tool_output_of json_loads str it
  = [("error",
      VStr ("No local implementation for tool '" ++ name it ++ "'"))]
  <-> ~ In (name it) (map spec_name TOOLS).
Proof.
  unfold tool_output_of. cbv zeta. cbn [TOOL_MAPPING lookup map TOOLS spec_name In].
  destruct (String.eqb_spec (name it) "calculate_sip_projection") as [E | N1].
  - split; [| intros H; exfalso; apply H; left; now rewrite E].
    intros H _. revert H. unfold try_except.
    destruct (bind _ _) as [e | d] eqn:Hd; [rewrite E; discriminate |].
    intros ->. apply bind_inr in Hd. destruct Hd as (args & _ & Hc).
    destruct args as [| | | | | | kw]; try discriminate.
    cbn [call] in Hc. revert Hc.
    apply tool_result_not_unknown. left. now rewrite E.
  - destruct (String.eqb_spec (name it) "plan_retirement_goal") as [E | N2].
    + split; [| intros H; exfalso; apply H; right; left; now rewrite E].
      intros H _. revert H. unfold try_except.
      destruct (bind _ _) as [e | d] eqn:Hd; [rewrite E; discriminate |].
      intros ->. apply bind_inr in Hd. destruct Hd as (args & _ & Hc).
      destruct args as [| | | | | | kw]; try discriminate.
      cbn [call] in Hc. revert Hc.
      apply tool_result_not_unknown. right. left. now rewrite E.
    + split; [| reflexivity].
      intros _ [H | [H | []]]; congruence.
Qed.

End Catalog.

(** ** The default of [current_corpus] *)

Lemma unexpected_keyword_app {F : PyFloat} (params : list string)
    (kw kw' : kwargs) :
  unexpected_keyword params (kw ++ kw')%list
  = unexpected_keyword params kw || unexpected_keyword params kw'.
Proof. unfold unexpected_keyword. apply existsb_app. Qed.

(** X12.  The only parameter with a default is [current_corpus]: a call
    of [plan_retirement_goal] through the registry that leaves it out
    does what the call with [current_corpus = 0.0] added does, in either
    arithmetic, whether it returns or raises. *)
Theorem current_corpus_defaults_to_zero {F : PyFloat} (kw : kwargs) :
  lookup "current_corpus" kw = None ->
  plan_retirement_goal_tool kw
  = plan_retirement_goal_tool
      (kw ++ [("current_corpus", JFloat (float_lit 0 1))])%list.
Proof.
  intros Hcc. unfold plan_retirement_goal_tool, required_arg.
  rewrite unexpected_keyword_app, !lookup_app, Hcc.
  replace (unexpected_keyword _ [("current_corpus", JFloat (float_lit 0 1))])
    with false by reflexivity.
  rewrite orb_false_r.
  destruct (unexpected_keyword _ kw); [reflexivity |].
  destruct (lookup "current_age" kw); [| reflexivity].
  destruct (lookup "retirement_age" kw); [| reflexivity].
  destruct (lookup "monthly_expense_today" kw); [| reflexivity].
  destruct (lookup "inflation_pct" kw); [| reflexivity].
  destruct (lookup "expected_return_pct_during_accumulation" kw);
    reflexivity.
Qed.

Lemma current_corpus_defaults_to_zero_witness :
  let kw : kwargs (F:=Binary64) :=
    [("current_age", JInt 30); ("retirement_age", JInt 60);
     ("monthly_expense_today", JFloat (float_lit 50000 1));
     ("inflation_pct", JFloat (float_lit 6 1));
     ("expected_return_pct_during_accumulation", JFloat (float_lit 0 1))] in
  lookup "current_corpus" kw = None
  /\ plan_retirement_goal_tool (F:=Binary64) kw
     = plan_retirement_goal_tool (F:=Binary64)
         (kw ++ [("current_corpus", JFloat (float_lit 0 1))])%list.
Proof.
  intros kw.
  assert (H : lookup "current_corpus" kw = None) by reflexivity.
  split; [exact H |].
  exact (current_corpus_defaults_to_zero (F:=Binary64) kw H).
Defined.
(** ** The agent turn: when it returns, and when it does not *)

Section TurnEnds.

Context {F : PyFloat}.
Variable json_loads : string -> raises (json float).
Variable json_dumps : dict float -> string.
Variable str : exception -> string.
Variable backend : Type.
Variable backend_step : backend -> request float -> Response * backend.

Abbreviation invoke := (invoke_tools_from_response json_loads json_dumps str).
Abbreviation loop := (agent_loop json_loads json_dumps str backend_step).
Abbreviation exchange_ := (exchange json_loads json_dumps str backend_step).
Abbreviation resubmit_ := (resubmit json_loads json_dumps str backend_step).
Abbreviation turn := (run_agent_turn json_loads json_dumps str backend_step).

(** One iteration of the loop on a response with tool requests. *)
Lemma agent_loop_step (fuel : nat) (c : client backend) (r : Response) :
  has_tool_requests r = true ->
  loop (S fuel) c r
  = loop fuel (snd (resubmit_ (r, c))) (fst (resubmit_ (r, c))).
Proof.
  intros H. cbn [agent_loop].
  destruct (invoke r) as [| o os] eqn:E.
  - apply invoke_nil_iff in E. congruence.
  - rewrite <- E. unfold resubmit, resubmission. cbn [fst snd].
    now destruct (responses_create backend_step c _).
Qed.

Lemma agent_loop_stop (fuel : nat) (c : client backend) (r : Response) :
  has_tool_requests r = false -> loop (S fuel) c r = Some (r, c).
Proof.
  intros H. cbn [agent_loop].
  apply (invoke_nil_iff json_loads json_dumps str) in H. now rewrite H.
Qed.

(** A loop that returned stopped at the first response without tool
    requests. *)
Lemma agent_loop_returned (fuel : nat) :
  forall (rc rc' : Response * client backend),
    loop fuel (snd rc) (fst rc) = Some rc' ->
    exists k : nat,
      (k < fuel)%nat
      /\ Nat.iter k resubmit_ rc = rc'
      /\ has_tool_requests (fst rc') = false
      /\ forall i, (i < k)%nat ->
           has_tool_requests (fst (Nat.iter i resubmit_ rc)) = true.
Proof.
  induction fuel as [| fuel IH]; intros [r c] rc' H; [discriminate |].
  cbn [fst snd] in H.
  destruct (has_tool_requests r) eqn:E.
  - rewrite (agent_loop_step fuel c r E) in H.
    destruct (IH _ _ H) as (k & Hk & Hit & Hlast & Hcalls).
    exists (S k). split; [lia |]. split; [| split; [exact Hlast |]].
    + now rewrite Nat.iter_succ_r.
    + intros [| i] Hi; [exact E |].
      rewrite Nat.iter_succ_r. apply Hcalls. lia.
  - rewrite (agent_loop_stop fuel c r E) in H. injection H as <-.
    exists 0%nat. split; [lia |]. split; [reflexivity |].
    split; [exact E |]. intros i Hi. lia.
Qed.

(** A loop that only meets tool requests uses up its fuel. *)
Lemma agent_loop_running (fuel : nat) :
  forall rc : Response * client backend,
    (forall i, (i < fuel)%nat ->
       has_tool_requests (fst (Nat.iter i resubmit_ rc)) = true) ->
    loop fuel (snd rc) (fst rc) = None.
Proof.
  induction fuel as [| fuel IH]; intros [r c] H; [reflexivity |].
  cbn [fst snd]. rewrite agent_loop_step by (apply (H 0%nat); lia).
  apply IH. intros i Hi. rewrite <- Nat.iter_succ_r. apply H. lia.
Qed.

Lemma run_agent_turn_loop (fuel : nat) (c : client backend)
    (user_input : string) (prev : option string) :
  turn fuel c user_input prev
  = loop fuel (snd (exchange_ 0 c user_input prev))
      (fst (exchange_ 0 c user_input prev)).
Proof.
  unfold run_agent_turn, exchange. cbn [Nat.iter].
  now destruct (responses_create backend_step c _).
Qed.

(** X13.  Whenever [run_agent_turn] returns, it returns the first
    response of the exchange that carries no [function_call] item: the
    dispatcher has nothing to answer to it, and every response before it
    carried tool requests and was answered. *)
Theorem run_agent_turn_returns_first_answer (fuel : nat)
    (c c' : client backend) (user_input : string) (prev : option string)
    (response : Response) :
  turn fuel c user_input prev = Some (response, c') ->
  has_tool_requests response = false
  /\ invoke response = []
  /\ exists m : nat,
       (m < fuel)%nat
       /\ exchange_ m c user_input prev = (response, c')
       /\ forall i, (i < m)%nat ->
            has_tool_requests (fst (exchange_ i c user_input prev)) = true.
Proof.
  rewrite run_agent_turn_loop. intros H.
  apply agent_loop_returned in H.
  destruct H as (k & Hk & Hit & Hlast & Hcalls). cbn [fst] in Hlast.
  split; [exact Hlast |]. split; [now apply invoke_nil_iff |].
  exists k. split; [exact Hk |]. split; [exact Hit | exact Hcalls].
Qed.

(** X14.  The loop of [run_agent_turn] has no bound of its own: as long
    as the backend's responses carry tool requests it goes on, so that
    after any number [fuel] of iterations that met tool requests only, it
    has not returned. *)
Theorem run_agent_turn_has_no_iteration_limit (fuel : nat)
    (c : client backend) (user_input : string) (prev : option string) :
  (forall i, (i < fuel)%nat ->
     has_tool_requests (fst (exchange_ i c user_input prev)) = true) ->
  turn fuel c user_input prev = None.
Proof.
  intros H. rewrite run_agent_turn_loop. now apply agent_loop_running.
Qed.

End TurnEnds.

Lemma run_agent_turn_returns_first_answer_witness :
  let c : client (F:=Exact) nat := (0%nat, []) in
  exists (response : Response) (c' : client (F:=Exact) nat),
    run_agent_turn (F:=Exact) Script.json_loads Script.json_dumps Script.str
      Script.backend_step 5 c "hello" None = Some (response, c')
    /\ has_tool_requests response = false.
Proof.
  intros c.
  let r := eval vm_compute in
    (run_agent_turn (F:=Exact) Script.json_loads Script.json_dumps Script.str
       Script.backend_step 5 c "hello" None) in
  match r with
  | Some (?response, ?c') =>
      assert (H : run_agent_turn (F:=Exact) Script.json_loads
                    Script.json_dumps Script.str Script.backend_step 5 c
                    "hello" None = Some (response, c'))
        by (vm_compute; reflexivity);
      exists response, c'
  end.
  split; [exact H |].
  exact (proj1 (run_agent_turn_returns_first_answer _ _ _ _ _ _ _ _ _ _ _ H)).
Defined.

Lemma run_agent_turn_has_no_iteration_limit_witness :
  let c : client (F:=Exact) nat := (0%nat, []) in
  (forall i, (i < 3)%nat ->
     has_tool_requests
       (fst (exchange (F:=Exact) Script.json_loads Script.json_dumps
               Script.str Insistent.backend_step i c "hello" None)) = true)
  /\ run_agent_turn (F:=Exact) Script.json_loads Script.json_dumps Script.str
       Insistent.backend_step 3 c "hello" None = None.
Proof.
  intros c.
  assert (H : forall i, (i < 3)%nat ->
     has_tool_requests
       (fst (exchange (F:=Exact) Script.json_loads Script.json_dumps
               Script.str Insistent.backend_step i c "hello" None)) = true).
  { intros [| [| [| i]]] Hi; reflexivity. }
  split; [exact H |].
  exact (run_agent_turn_has_no_iteration_limit _ _ _ _ _ 3 c "hello" None H).
Defined.
(** ** The requests of a turn, as a conversation *)

Section TurnLog.

Context {F : PyFloat}.
Variable json_loads : string -> raises (json float).
Variable json_dumps : dict float -> string.
Variable str : exception -> string.
Variable backend : Type.
Variable backend_step : backend -> request float -> Response * backend.

Abbreviation exchange_ := (exchange json_loads json_dumps str backend_step).
Abbreviation issued_ := (issued_requests json_loads json_dumps str backend_step).
Abbreviation resubmission_ := (resubmission json_loads json_dumps str).
Abbreviation turn := (run_agent_turn json_loads json_dumps str backend_step).
Abbreviation serve_ := (serve backend_step).
Abbreviation responses_ := (responses backend_step).
Abbreviation continues_ := (continues backend_step).

Lemma continues_app (l l' : list (request float)) :
  forall s : backend * option string,
    continues_ s (l ++ l')
    <-> continues_ s l /\ continues_ (fold_left serve_ l s) l'.
Proof.
  induction l as [| req l IH]; intros s; cbn [app continues fold_left].
  - tauto.
  - rewrite IH. tauto.
Qed.

Lemma responses_app (l l' : list (request float)) :
  forall (b : backend) (p : option string),
    responses_ b (l ++ l')
    = (responses_ b l ++ responses_ (fst (fold_left serve_ l (b, p))) l')%list.
Proof.
  induction l as [| req l IH]; intros b p; cbn [app responses fold_left].
  - reflexivity.
  - unfold serve at 2. cbn [fst].
    destruct (backend_step b req) as [r b']. cbn [app].
    now rewrite (IH b' (Some (id r))).
Qed.

Lemma issued_requests_S (m : nat) (c : client backend) (u : string)
    (prev : option string) :
  issued_ (S m) c u prev
  = (issued_ m c u prev ++ [resubmission_ (fst (exchange_ m c u prev))])%list.
Proof.
  unfold issued_requests. now rewrite seq_S, map_app.
Qed.

Lemma exchange_S (m : nat) (c : client backend) (u : string)
    (prev : option string) :
  exchange_ (S m) c u prev
  = responses_create backend_step (snd (exchange_ m c u prev))
      (resubmission_ (fst (exchange_ m c u prev))).
Proof. reflexivity. Qed.

(** The backend's state and latest response after the exchange [m]. *)
Lemma exchange_served (m : nat) (c : client backend) (u : string)
    (prev : option string) :
  fold_left serve_ (issued_ m c u prev) (fst c, prev)
  = (fst (snd (exchange_ m c u prev)),
     Some (id (fst (exchange_ m c u prev)))).
Proof.
  induction m as [| m IH].
  - unfold issued_requests, exchange, responses_create, serve.
    cbn [seq map fold_left Nat.iter fst snd].
    now destruct (backend_step (fst c) _).
  - rewrite issued_requests_S, fold_left_app, IH, exchange_S.
    cbn [fold_left]. unfold serve, responses_create. cbn [fst snd].
    now destruct (backend_step _ _).
Qed.

Lemma exchange_continues (m : nat) (c : client backend) (u : string)
    (prev : option string) :
  continues_ (fst c, prev) (issued_ m c u prev).
Proof.
  induction m as [| m IH].
  - unfold issued_requests. cbn. tauto.
  - rewrite issued_requests_S. apply continues_app. split; [exact IH |].
    rewrite exchange_served. cbn. tauto.
Qed.

Lemma exchange_responses (m : nat) (c : client backend) (u : string)
    (prev : option string) :
  responses_ (fst c) (issued_ m c u prev)
  = map (fun i => fst (exchange_ i c u prev)) (seq 0 (S m)).
Proof.
  induction m as [| m IH].
  - unfold issued_requests, exchange, responses_create.
    cbn [seq map responses Nat.iter].
    now destruct (backend_step (fst c) _).
  - rewrite issued_requests_S, (responses_app _ _ (fst c) prev), IH.
    rewrite exchange_served. cbn [fst]. rewrite (seq_S (S m) 0), map_app.
    f_equal. cbn [map responses Nat.add]. rewrite exchange_S.
    unfold responses_create.
    now destruct (backend_step _ _).
Qed.

Lemma exchange_user_inputs (m : nat) (c : client backend) (u : string)
    (prev : option string) :
  user_inputs (issued_ m c u prev) = [u].
Proof.
  unfold issued_requests, user_inputs. cbn [flat_map first_request input app].
  f_equal. induction (seq 0 m) as [| i l IH]; [reflexivity | exact IH].
Qed.

Lemma exchange_carries_catalog (m : nat) (c : client backend) (u : string)
    (prev : option string) :
  Forall carries_catalog (issued_ m c u prev).
Proof.
  unfold issued_requests. constructor; [split; reflexivity |].
  apply Forall_forall. intros req Hin. apply in_map_iff in Hin.
  destruct Hin as (i & <- & _). split; reflexivity.
Qed.

(** Of the responses of a turn, the last alone ends it. *)
Lemma exchange_answers (m : nat) (f : nat -> Response) :
  (forall i, (i < m)%nat -> has_tool_requests (f i) = true) ->
  has_tool_requests (f m) = false ->
  forall k, answers (map f (seq k (S m - k))) = if (k <=? m)%nat then [f m] else [].
Proof.
  intros Hcalls Hlast k.
  destruct (Nat.leb_spec k m) as [Hk | Hk].
  - remember (m - k)%nat as d eqn:Ed. revert k Hk Ed.
    induction d as [| d IH]; intros k Hk Ed.
    + assert (k = m) as -> by lia.
      replace (S m - m)%nat with 1%nat by lia.
      unfold answers. cbn. now rewrite Hlast.
    + replace (S m - k)%nat with (S (S m - S k)) by lia.
      cbn [seq map]. unfold answers. cbn [filter].
      rewrite (Hcalls k) by lia. cbn [negb].
      apply IH; lia.
  - replace (S m - k)%nat with 0%nat by lia. reflexivity.
Qed.

(** The requests a turn adds to the log. *)
Lemma run_agent_turn_log (fuel : nat) (c c' : client backend)
    (u : string) (prev : option string) (response : Response) :
  turn fuel c u prev = Some (response, c') ->
  exists new : list (request float),
    snd c' = (snd c ++ new)%list
    /\ fold_left serve_ new (fst c, prev) = (fst c', Some (id response))
    /\ continues_ (fst c, prev) new
    /\ answers (responses_ (fst c) new) = [response]
    /\ user_inputs new = [u]
    /\ Forall carries_catalog new.
Proof.
  intros H.
  rewrite run_agent_turn_loop in H. apply agent_loop_returned in H.
  destruct H as (m & _ & Hm & Hlast & Hcalls).
  change (Nat.iter m _ _) with (exchange_ m c u prev) in Hm.
  exists (issued_ m c u prev).
  split; [| split; [| split; [| split; [| split]]]].
  - now rewrite <- (exchange_log json_loads json_dumps str backend
                      backend_step m c u prev), Hm.
  - now rewrite exchange_served, Hm.
  - apply exchange_continues.
  - rewrite exchange_responses.
    rewrite <- Hm in Hlast.
    pose proof (exchange_answers m (fun i => fst (exchange_ i c u prev))
                  Hcalls Hlast 0%nat) as A.
    rewrite Nat.sub_0_r in A. cbn [Nat.leb] in A. rewrite A, Hm.
    reflexivity.
  - apply exchange_user_inputs.
  - apply exchange_carries_catalog.
Qed.

End TurnLog.

(** ** The session *)

Section MainSession.

Context {F : PyFloat}.
Variable json_loads : string -> raises (json float).
Variable json_dumps : dict float -> string.
Variable str : exception -> string.
Variable backend : Type.
Variable backend_step : backend -> request float -> Response * backend.

Abbreviation turn := (run_agent_turn json_loads json_dumps str backend_step).
Abbreviation main_loop_ := (main_loop json_loads json_dumps str backend_step).
Abbreviation main_ := (main json_loads json_dumps str backend_step).
Abbreviation serve_ := (serve backend_step).
Abbreviation responses_ := (responses backend_step).
Abbreviation continues_ := (continues backend_step).

(** What [main] writes for a turn that ended with [response], and what
    it writes last. *)
Abbreviation shown :=
  (fun response : Response =>
     [prompt; newline ++ "Agent:" ++ newline; output_text response ++ newline]).
Abbreviation closing :=
  (fun e : ending =>
     match e with
     | Returns => [prompt; farewell ++ newline]
     | RaisesEOFError => [prompt]
     end).

(** The loop of [main], from any state: the requests it adds to the log,
    what it writes, and the lines it reads. *)
Lemma main_loop_session (fuel : nat) (stdin : list string) :
  forall (stdout : list string) (c : client backend) (prev : option string)
         (s : session (client backend)),
    main_loop_ fuel stdin stdout c prev = Some s ->
    exists (new : list (request float)) (lines : list string),
      snd (session_client s) = (snd c ++ new)%list
      /\ continues_ (fst c, prev) new
      /\ Forall carries_catalog new
      /\ written s
         = (stdout ++ flat_map shown (answers (responses_ (fst c) new))
            ++ closing (how s))%list
      /\ user_inputs new = map strip lines
      /\ Forall (fun line => is_exit_command (strip line) = false) lines
      /\ match how s with
         | Returns =>
             exists command : string,
               stdin = (lines ++ command :: unread s)%list
               /\ is_exit_command (strip command) = true
         | RaisesEOFError => stdin = lines /\ unread s = []
         end.
Proof.
  induction stdin as [| line stdin IH]; intros stdout c prev s H;
    cbn [main_loop] in H.
  - injection H as <-. exists [], []. cbn.
    rewrite app_nil_r. repeat split; constructor.
  - destruct (is_exit_command (strip line)) eqn:Ex.
    + injection H as <-. exists [], []. cbn.
      rewrite app_nil_r. unfold print. rewrite <- app_assoc.
      repeat split; try constructor.
      exists line. split; [reflexivity | exact Ex].
    + destruct (turn fuel c (strip line) prev) as [[r c1] |] eqn:Ht;
        [| discriminate].
      apply run_agent_turn_log in Ht.
      destruct Ht as (new1 & Hlog1 & Hserved & Hcont1 & Hans1 & Hin1 & Hcat1).
      apply IH in H.
      destruct H as (new2 & lines & Hlog2 & Hcont2 & Hcat2 & Hout & Hin2
                     & Hlines & Hend).
      assert (Hb1 : fst c1 = fst (fold_left serve_ new1 (fst c, prev)))
        by now rewrite Hserved.
      exists (new1 ++ new2)%list, (line :: lines).
      split; [now rewrite Hlog2, Hlog1, app_assoc |].
      split.
      { apply continues_app. split; [exact Hcont1 |]. now rewrite Hserved. }
      split; [now apply Forall_app |].
      split.
      { rewrite Hout, (responses_app _ _ _ _ (fst c) prev), <- Hb1.
        unfold answers in *. rewrite filter_app, flat_map_app, Hans1.
        unfold print. cbn [flat_map app].
        rewrite <- !app_assoc. reflexivity. }
      split.
      { unfold user_inputs in *. rewrite flat_map_app, Hin1, Hin2.
        reflexivity. }
      split; [now constructor |].
      destruct (how s).
      * destruct Hend as (command & -> & Hc).
        exists command. split; [reflexivity | exact Hc].
      * destruct Hend as [-> Hu]. split; [reflexivity | exact Hu].
Qed.

(** [main] ends on every standard input when each of its turns does. *)
Lemma main_loop_ends (fuel : nat) (stdin : list string) :
  (forall (c : client backend) (u : string) (prev : option string),
      turn fuel c u prev <> None) ->
  forall (stdout : list string) (c : client backend) (prev : option string),
    main_loop_ fuel stdin stdout c prev <> None.
Proof.
  intros Hturn. induction stdin as [| line stdin IH]; intros stdout c prev;
    cbn [main_loop]; [discriminate |].
  destruct (is_exit_command (strip line)); [discriminate |].
  destruct (turn fuel c (strip line) prev) as [[r c1] |] eqn:Ht.
  - apply IH.
  - now apply Hturn in Ht.
Qed.

(** X15.  The requests of a whole session make one conversation: the
    first request of the first turn continues nothing, every other
    request, within a turn or from one turn to the next, names the
    response to the request before it, and every request carries the
    catalog [TOOLS] and the model [MODEL]. *)
Theorem main_is_one_conversation (fuel : nat) (stdin stdout : list string)
    (c : client backend) (s : session (client backend)) :
  main_ fuel stdin stdout c = Some s ->
  exists new : list (request float),
    snd (session_client s) = (snd c ++ new)%list
    /\ continues_ (fst c, None) new
    /\ Forall carries_catalog new.
Proof.
  intros H. unfold main in H. apply main_loop_session in H.
  destruct H as (new & lines & H1 & H2 & H3 & _).
  exists new. split; [exact H1 |]. split; [exact H2 | exact H3].
Qed.

(** X16.  What [main] writes: the banner, then for every response of the
    session that carries no tool request, in order, the prompt, the line
    ["Agent:"] and the response's text, then the prompt once more and,
    when it was told to stop, the farewell.  The text of a response that
    asks for tools is never shown. *)
Theorem main_transcript (fuel : nat) (stdin stdout : list string)
    (c : client backend) (s : session (client backend)) :
  main_ fuel stdin stdout c = Some s ->
  exists new : list (request float),
    snd (session_client s) = (snd c ++ new)%list
    /\ written s
       = (stdout ++ banner
          ++ flat_map
               (fun response : Response =>
                  [prompt; (newline ++ "Agent:" ++ newline)%string;
                   (output_text response ++ newline)%string])
               (answers (responses_ (fst c) new))
          ++ match how s with
             | Returns => [prompt; (farewell ++ newline)%string]
             | RaisesEOFError => [prompt]
             end)%list.
Proof.
  intros H. unfold main in H. apply main_loop_session in H.
  destruct H as (new & lines & H1 & _ & _ & H2 & _).
  exists new. split; [exact H1 |]. rewrite H2. now rewrite <- app_assoc.
Qed.

(** X17.  [main] reads standard input up to the first line that, stripped
    and in lower case, is [exit] or [quit], and leaves what follows
    unread; without such a line it reads everything and ends with the
    [EOFError] of [input].  Each line read before is sent, stripped, as
    the user's text of one turn, in order, an empty line too.  [main] ends
    whenever each of its turns does. *)
Theorem main_reads_until_exit (fuel : nat) (stdin stdout : list string)
    (c : client backend) :
  (forall (c' : client backend) (u : string) (prev : option string),
      turn fuel c' u prev <> None) ->
  exists (s : session (client backend)) (new : list (request float))
         (lines : list string),
    main_ fuel stdin stdout c = Some s
    /\ snd (session_client s) = (snd c ++ new)%list
    /\ user_inputs new = map strip lines
    /\ Forall (fun line => is_exit_command (strip line) = false) lines
    /\ match how s with
       | Returns =>
           exists command : string,
             stdin = (lines ++ command :: unread s)%list
             /\ is_exit_command (strip command) = true
       | RaisesEOFError => stdin = lines /\ unread s = []
       end.
Proof.
  intros Hturn. unfold main.
  destruct (main_loop_ fuel stdin (stdout ++ banner)%list c None)
    as [s |] eqn:H.
  - pose proof H as H'. apply main_loop_session in H'.
    destruct H' as (new & lines & H1 & _ & _ & _ & H2 & H3 & H4).
    exists s, new, lines. repeat split; assumption.
  - now apply main_loop_ends in H.
Qed.

End MainSession.

(** ** Telling [main] to stop *)

Lemma isspace_lower_char (c : ascii) : isspace (lower_char c) = isspace c.
Proof. destruct c as [[] [] [] [] [] [] [] []]; reflexivity. Qed.

Lemma lstrip_blank (w s : string) : blank w = true -> lstrip (w ++ s) = lstrip s.
Proof.
  induction w as [| c w IH]; cbn [blank append lstrip]; [reflexivity |].
  intros H. apply andb_prop in H. destruct H as [-> H]. now apply IH.
Qed.

Lemma rstrip_blank (w : string) : blank w = true -> rstrip w = "".
Proof.
  induction w as [| c w IH]; cbn [blank rstrip]; [reflexivity |].
  intros H. apply andb_prop in H. destruct H as [-> H]. now rewrite IH.
Qed.

(** A command word, in any capitals, has no white space in it, so that
    stripping the line gives the word back. *)
Lemma strip_command (w1 w2 word : string) :
  blank w1 = true -> blank w2 = true ->
  lower word = "exit" \/ lower word = "quit" ->
  strip (w1 ++ word ++ w2) = word.
Proof.
  intros H1 H2 Hw. unfold strip. rewrite (lstrip_blank _ _ H1).
  apply rstrip_blank in H2.
  destruct word as [| c1 [| c2 [| c3 [| c4 [| c5 word]]]]];
    try (destruct Hw as [Hw | Hw]; discriminate Hw).
  assert (Hs : isspace c1 = false /\ isspace c2 = false
               /\ isspace c3 = false /\ isspace c4 = false).
  { rewrite <- (isspace_lower_char c1), <- (isspace_lower_char c2),
      <- (isspace_lower_char c3), <- (isspace_lower_char c4).
    destruct Hw as [Hw | Hw]; cbn [lower] in Hw;
      injection Hw as -> -> -> ->; repeat split; reflexivity. }
  destruct Hs as (S1 & S2 & S3 & S4).
  cbn [append lstrip rstrip]. rewrite S1. cbn [rstrip]. rewrite H2, S4.
  reflexivity.
Qed.

Section Exit.

Context {F : PyFloat}.
Variable json_loads : string -> raises (json float).
Variable json_dumps : dict float -> string.
Variable str : exception -> string.
Variable backend : Type.
Variable backend_step : backend -> request float -> Response * backend.

(** X18.  A line that holds the word [exit] or [quit], in any capitals
    and with any white space around it, ends the session at once: [main]
    writes the farewell and returns without a request to the backend, and
    the lines after it stay unread. *)
Theorem main_stops_on_exit_command (fuel : nat) (w1 w2 word : string)
    (rest stdout : list string) (c : client backend) :
  blank w1 = true ->
  blank w2 = true ->
  lower word = "exit" \/ lower word = "quit" ->
  main json_loads json_dumps str backend_step fuel
    ((w1 ++ word ++ w2)%string :: rest) stdout c
  = Some {| how := Returns;
            unread := rest;
            written := (stdout ++ banner
                        ++ [prompt; (farewell ++ newline)%string])%list;
            session_client := c |}.
Proof.
  intros H1 H2 Hw. unfold main. cbn [main_loop].
  rewrite (strip_command w1 w2 word H1 H2 Hw).
  assert (E : is_exit_command word = true).
  { unfold is_exit_command. destruct Hw as [-> | ->]; reflexivity. }
  rewrite E. unfold print. now rewrite <- !app_assoc.
Qed.

End Exit.

Lemma main_stops_on_exit_command_witness :
  blank "  " = true /\ blank " " = true
  /\ (lower "QuIt" = "exit" \/ lower "QuIt" = "quit")
  /\ main (F:=Exact) Script.json_loads Script.json_dumps Script.str
       Script.backend_step 2 ["  QuIt "; "later"] [] (0%nat, [])
     = Some {| how := Returns;
               unread := ["later"];
               written := (banner
                           ++ [prompt; (farewell ++ newline)%string])%list;
               session_client := (0%nat, []) |}.
Proof.
  assert (H1 : blank "  " = true) by reflexivity.
  assert (H2 : blank " " = true) by reflexivity.
  assert (H3 : lower "QuIt" = "exit" \/ lower "QuIt" = "quit")
    by (right; reflexivity).
  split; [exact H1 |]. split; [exact H2 |]. split; [exact H3 |].
  exact (main_stops_on_exit_command (F:=Exact) Script.json_loads
           Script.json_dumps Script.str nat Script.backend_step 2
           "  " " " "QuIt" ["later"] [] (0%nat, []) H1 H2 H3).
Defined.

(** ** A scripted session: two turns, then [exit] *)

(** On the scripted backend every turn ends within two iterations. *)
Lemma script_turn_ends (c : client (F:=Exact) nat) (u : string)
    (prev : option string) :
  run_agent_turn (F:=Exact) Script.json_loads Script.json_dumps Script.str
    Script.backend_step 2 c u prev <> None.
Proof.
  rewrite run_agent_turn_loop.
  destruct c as [[| served] log]; unfold exchange, responses_create;
    cbn [Nat.iter fst snd Script.backend_step].
  - rewrite agent_loop_step by reflexivity.
    unfold resubmit, responses_create. cbn [fst snd Script.backend_step].
    rewrite agent_loop_stop by reflexivity. discriminate.
  - rewrite agent_loop_stop by reflexivity. discriminate.
Qed.

Lemma main_is_one_conversation_witness :
  exists (s : session (client (F:=Exact) nat)) (new : list (request Q)),
    main (F:=Exact) Script.json_loads Script.json_dumps Script.str
      Script.backend_step 2 ["hello"; "  and then? "; "exit"] []
      (0%nat, []) = Some s
    /\ snd (session_client s) = new
    /\ continues (F:=Exact) Script.backend_step (0%nat, None) new
    /\ List.length new = 3%nat.
Proof.
  let r := eval vm_compute in
    (main (F:=Exact) Script.json_loads Script.json_dumps Script.str
       Script.backend_step 2 ["hello"; "  and then? "; "exit"] []
       (0%nat, [])) in
  match r with
  | Some ?s =>
      assert (H : main (F:=Exact) Script.json_loads Script.json_dumps
                    Script.str Script.backend_step 2
                    ["hello"; "  and then? "; "exit"] [] (0%nat, [])
                  = Some s) by (vm_compute; reflexivity);
      destruct (main_is_one_conversation (F:=Exact) Script.json_loads
                  Script.json_dumps Script.str nat Script.backend_step 2
                  _ _ _ s H) as (new & Hlog & Hcont & _);
      exists s, new
  end.
  split; [exact H |]. split; [exact Hlog |]. split; [exact Hcont |].
  match type of Hlog with
  | ?log = _ => change (log = new) in Hlog
  end.
  now rewrite <- Hlog.
Defined.

Lemma main_transcript_witness :
  exists s : session (client (F:=Exact) nat),
    main (F:=Exact) Script.json_loads Script.json_dumps Script.str
      Script.backend_step 2 ["hello"; "  and then? "; "exit"] []
      (0%nat, []) = Some s
    /\ written s
       = (banner
          ++ [prompt; (newline ++ "Agent:" ++ newline)%string;
              ("done" ++ newline)%string;
              prompt; (newline ++ "Agent:" ++ newline)%string;
              ("done" ++ newline)%string;
              prompt; (farewell ++ newline)%string])%list.
Proof.
  let r := eval vm_compute in
    (main (F:=Exact) Script.json_loads Script.json_dumps Script.str
       Script.backend_step 2 ["hello"; "  and then? "; "exit"] []
       (0%nat, [])) in
  match r with
  | Some ?s =>
      assert (H : main (F:=Exact) Script.json_loads Script.json_dumps
                    Script.str Script.backend_step 2
                    ["hello"; "  and then? "; "exit"] [] (0%nat, [])
                  = Some s) by (vm_compute; reflexivity);
      destruct (main_transcript (F:=Exact) Script.json_loads
                  Script.json_dumps Script.str nat Script.backend_step 2
                  _ _ _ s H) as (new & Hlog & Hout);
      exists s
  end.
  split; [exact H |]. reflexivity.
Defined.

Lemma main_reads_until_exit_witness :
  exists (s : session (client (F:=Exact) nat)) (new : list (request Q))
         (lines : list string),
    main (F:=Exact) Script.json_loads Script.json_dumps Script.str
      Script.backend_step 2 ["hello"; "  and then? "; "exit"; "later"] []
      (0%nat, []) = Some s
    /\ snd (session_client s) = new
    /\ user_inputs (F:=Exact) new = map strip lines
    /\ how s = Returns
    /\ unread s = ["later"].
Proof.
  destruct (main_reads_until_exit (F:=Exact) Script.json_loads
              Script.json_dumps Script.str nat Script.backend_step 2
              ["hello"; "  and then? "; "exit"; "later"] [] (0%nat, [])
              script_turn_ends)
    as (s & new & lines & Hmain & Hlog & Hin & _ & _).
  exists s, new, lines.
  split; [exact Hmain |]. split; [exact Hlog |]. split; [exact Hin |].
  assert (E : exists s',
             main (F:=Exact) Script.json_loads Script.json_dumps Script.str
               Script.backend_step 2
               ["hello"; "  and then? "; "exit"; "later"] [] (0%nat, [])
             = Some s' /\ how s' = Returns /\ unread s' = ["later"]).
  { let r := eval vm_compute in
      (main (F:=Exact) Script.json_loads Script.json_dumps Script.str
         Script.backend_step 2 ["hello"; "  and then? "; "exit"; "later"] []
         (0%nat, [])) in
    match r with
    | Some ?s' => exists s'
    end.
    split; [vm_compute; reflexivity |]. split; reflexivity. }
  destruct E as (s' & E & Hhow & Hun). rewrite Hmain in E.
  injection E as <-. split; [exact Hhow | exact Hun].
Defined.

(** ** The zero-rate branch in binary64 *)

(** A float minus itself is [+0.0], unless it is infinite or not a
    number. *)
Lemma binary64_sub_diag (t : spec_float) :
  match t with
  | S754_zero _ | S754_finite _ _ _ =>
      fsub (F:=Binary64) t t = IEEE.zero
  | _ => True
  end.
Proof.
  destruct t as [s | s | | s m e]; try exact I.
  - destruct s; reflexivity.
  - cbn [fsub Binary64]. unfold SFsub. rewrite Z.sub_diag. reflexivity.
Qed.

(** X19.  In binary64, when the annual return percentage is zero ([0.0]
    or [-0.0]) the monthly rate compares equal to [0] and the branch
    [r == 0] is taken: [math.pow] is not called, [projected_value] is
    the same float as [total_invested], the rounding of
    [monthly_investment * n], and [projected_gain] is [0.0] whenever that
    product is finite. *)
Theorem calculate_sip_projection_zero_return_binary64
    (monthly_investment annual_return_pct total : spec_float) (years : Z) :
  1 <= years ->
  feq (F:=Binary64) annual_return_pct f0 = true ->
  mul_int (F:=Binary64) monthly_investment (years * 12) = inr total ->
  calculate_sip_projection (F:=Binary64) monthly_investment
    annual_return_pct years
  = inr [("monthly_investment", VFloat monthly_investment);
         ("expected_annual_return_pct", VFloat annual_return_pct);
         ("years", VInt years);
         ("total_invested", VFloat (IEEE.round2 total));
         ("projected_value", VFloat (IEEE.round2 total));
         ("projected_gain",
          VFloat (IEEE.round2 (fsub (F:=Binary64) total total)))]
  /\ match total with
     | S754_zero _ | S754_finite _ _ _ =>
         IEEE.round2 (fsub (F:=Binary64) total total) = IEEE.zero
     | _ => True
     end.
Proof.
  intros Hy Hp Ht. split.
  - unfold calculate_sip_projection.
    assert (E : (years <=? 0) = false) by (apply Z.leb_gt; lia).
    rewrite E.
    destruct annual_return_pct as [s | s | | s m e];
      try discriminate Hp; try (destruct s; discriminate Hp).
    assert (Hr : monthly_rate (F:=Binary64) (S754_zero s)
                 = inr (S754_zero s)).
    { destruct s; reflexivity. }
    rewrite Hr. cbn [bind]. unfold future_value.
    assert (E0 : feq (F:=Binary64) (S754_zero s) f0 = true)
      by (destruct s; reflexivity).
    rewrite E0, Ht. reflexivity.
  - pose proof (binary64_sub_diag total) as H.
    destruct total as [s | s | | s m e]; try exact I; now rewrite H.
Qed.

Lemma calculate_sip_projection_zero_return_binary64_witness :
  1 <= 10
  /\ feq (F:=Binary64) (float_lit 0 1) f0 = true
  /\ mul_int (F:=Binary64) (float_lit 1000 1) (10 * 12)
     = inr (float_lit 120000 1)
  /\ calculate_sip_projection (F:=Binary64) (float_lit 1000 1)
       (float_lit 0 1) 10
     = inr [("monthly_investment", VFloat (float_lit 1000 1));
            ("expected_annual_return_pct", VFloat (float_lit 0 1));
            ("years", VInt 10);
            ("total_invested", VFloat (IEEE.round2 (float_lit 120000 1)));
            ("projected_value", VFloat (IEEE.round2 (float_lit 120000 1)));
            ("projected_gain",
             VFloat (IEEE.round2
                       (fsub (F:=Binary64) (float_lit 120000 1)
                          (float_lit 120000 1))))].
Proof.
  assert (H1 : 1 <= 10) by lia.
  assert (H2 : feq (F:=Binary64) (float_lit 0 1) f0 = true) by reflexivity.
  assert (H3 : mul_int (F:=Binary64) (float_lit 1000 1) (10 * 12)
               = inr (float_lit 120000 1)) by (vm_compute; reflexivity).
  split; [exact H1 |]. split; [exact H2 |]. split; [exact H3 |].
  exact (proj1 (calculate_sip_projection_zero_return_binary64
                  (float_lit 1000 1) (float_lit 0 1) (float_lit 120000 1) 10
                  H1 H2 H3)).
Defined.

(** ** What the dispatcher parses *)

Section Parsing.

Context {F : PyFloat}.
Variable json_dumps : dict float -> string.
Variable str : exception -> string.

(** X20.  The dispatcher parses the [arguments] of an item only when the
    item is a [function_call], names a registered tool and has a payload
    that is not empty: two parsers that agree on those payloads give the
    same outputs, so that no other text of the response, well formed or
    not, has any effect. *)
Theorem invoke_tools_parses_known_calls_only
    (loads1 loads2 : string -> raises (json float)) (response : Response) :
  (forall it : item,
      In it (output response) ->
      is_function_call it = true ->
      lookup (name it) TOOL_MAPPING <> None ->
      arguments it <> "" ->
      loads1 (arguments it) = loads2 (arguments it)) ->
  invoke_tools_from_response loads1 json_dumps str response
  = invoke_tools_from_response loads2 json_dumps str response.
Proof.
  intros H. unfold invoke_tools_from_response.
  rewrite !fold_left_dispatch_item. cbn [app].
  apply map_ext_in. intros it Hin. apply filter_In in Hin.
  destruct Hin as [Hin Hcall]. unfold result_of. f_equal. f_equal.
  unfold tool_output_of. cbv zeta.
  destruct (lookup (name it) TOOL_MAPPING) as [t |] eqn:Ht; [| reflexivity].
  destruct (String.eqb_spec (arguments it) "") as [E | N]; [reflexivity |].
  rewrite (H it Hin Hcall); [reflexivity | congruence | exact N].
Qed.

End Parsing.

Lemma invoke_tools_parses_known_calls_only_witness :
  let strict : string -> raises (json Q) :=
    fun s => if String.eqb s "sip" then Script.json_loads (F:=Exact) s
             else raise ValueError in
  let response : Response :=
    {| id := "resp_0";
       output :=
         [{| type := "reasoning"; name := ""; arguments := "{";
             call_id := "" |};
          Script.function_call "get_stock_price" "[1," "call_1";
          Script.function_call "calculate_sip_projection" "" "call_2";
          Script.function_call "calculate_sip_projection" "sip" "call_3"];
       output_text := "" |} in
  (forall it : item,
      In it (output response) ->
      is_function_call it = true ->
      lookup (name it) (TOOL_MAPPING (F:=Exact)) <> None ->
      arguments it <> "" ->
      Script.json_loads (F:=Exact) (arguments it) = strict (arguments it))
  /\ invoke_tools_from_response (F:=Exact) Script.json_loads
       Script.json_dumps Script.str response
     = invoke_tools_from_response (F:=Exact) strict Script.json_dumps
         Script.str response.
Proof.
  intros strict response.
  assert (H : forall it : item,
             In it (output response) ->
             is_function_call it = true ->
             lookup (name it) (TOOL_MAPPING (F:=Exact)) <> None ->
             arguments it <> "" ->
             Script.json_loads (F:=Exact) (arguments it)
             = strict (arguments it)).
  { intros it [<- | [<- | [<- | [<- | []]]]] Hc Hl Ha;
      try discriminate Hc; try (exfalso; apply Hl; reflexivity);
      try (exfalso; apply Ha; reflexivity).
    reflexivity. }
  split; [exact H |].
  exact (invoke_tools_parses_known_calls_only (F:=Exact) Script.json_dumps
           Script.str (Script.json_loads (F:=Exact)) strict response H).
Defined.
